(** * KMFlowAgent hook DLL: the SPSC ring buffer and its lifecycle controller

    A shallow embedding of [ringbuffer.h] and [hook.c]
    (src/agent/windows/src/KMFlowAgent.HookDll) together with the
    properties of the bounded event channel and of the capture session.

    Scope of the model.  Every operation is modelled as one sequential
    step: the interlocked primitives are the functions they compute when
    nobody interferes, and [MemoryBarrier] is the identity.  Claims about
    interleavings of the producer and the consumer are outside this
    development. *)

From Stdlib Require Import ZArith Lia List Bool.
From stdpp Require Import base list.
Import ListNotations.

Local Open Scope Z_scope.

(** ** Machine integers *)

(** [uint32_t]: values are kept in [[0, 2^32)]. *)
Definition as_uint32 (z : Z) : Z := z mod 2 ^ 32.

(** [LONG] is a signed 32-bit integer on Windows; conversion from the
    unsigned result of a mixed [LONG & uint32_t] expression keeps the low
    32 bits. *)
Definition as_LONG (z : Z) : Z := (z + 2 ^ 31) mod 2 ^ 32 - 2 ^ 31.

Definition BOOL := bool.
Definition TRUE : BOOL := true.
Definition FALSE : BOOL := false.

(** ** Events ([ringbuffer.h], lines 17-47) *)

(** [HookEventType] is a C enum, hence an [int]; a zero-filled slot
    carries the value 0, which is neither enumerator. *)
Definition HookEventType := Z.
Definition HOOK_EVENT_KEYBOARD : HookEventType := 1.
Definition HOOK_EVENT_MOUSE : HookEventType := 2.

Module Keyboard.
Record EventData := {
  vkCode : Z;
  scanCode : Z;
  flags : Z;
  action : Z
}.
End Keyboard.

Module Mouse.
Record EventData := {
  x : Z;
  y : Z;
  mouseData : Z;
  action : Z
}.
End Mouse.

(** The anonymous union of [HookEvent]. *)
Inductive EventUnion :=
| keyboard (k : Keyboard.EventData)
| mouse (m : Mouse.EventData).

Record HookEvent := {
  type : HookEventType;
  timestamp_ms : Z;
  data : EventUnion
}.

(** A slot as [HEAP_ZERO_MEMORY] leaves it. *)
Definition zero_event : HookEvent :=
  {| type := 0; timestamp_ms := 0;
     data := keyboard {| Keyboard.vkCode := 0; Keyboard.scanCode := 0;
                         Keyboard.flags := 0; Keyboard.action := 0 |} |}.

#[global] Instance HookEvent_inhabited : Inhabited HookEvent := populate zero_event.

(** ** Ring buffer state ([ringbuffer.h], lines 49-56) *)

(** [buffer] is [None] for the null pointer and [Some slots] for a live
    heap block holding [slots]. *)
Record RingBuffer := {
  buffer : option (list HookEvent);
  capacity : Z;
  mask : Z;
  head : Z;
  tail : Z
}.

(** A static [RingBuffer] before any initialisation. *)
Definition RingBuffer_static : RingBuffer :=
  {| buffer := None; capacity := 0; mask := 0; head := 0; tail := 0 |}.

(** ** Interlocked primitives, sequentially *)

(** [InterlockedCompareExchange(dest, exchange, comperand)]: the new
    content of the cell and the value returned (the initial content). *)
Definition InterlockedCompareExchange (dest exchange comperand : Z) : Z * Z :=
  (if dest =? comperand then exchange else dest, dest).

(** [InterlockedExchange(dest, value)]: new content and returned value. *)
Definition InterlockedExchange (dest value : Z) : Z * Z := (value, dest).

(** ** Calls into the host *)

Definition HHOOK := Z.
Definition NULL : Z := 0.

(** The calls the DLL makes into the operating system, in the order it
    makes them.  Every function below returns the calls it made. *)
Inductive OsCall :=
| HeapAlloc (bytes : Z) (granted : bool)
| HeapFree
| SetWindowsHookExW (idHook : Z) (result : HHOOK)
| UnhookWindowsHookEx (hhk : HHOOK)
| CallNextHookEx (hhk : HHOOK) (nCode : Z).

(** ** RingBuffer_Init ([ringbuffer.h], lines 62-79) *)

(** [while (capacity < requestedCapacity) capacity <<= 1;] on [uint32_t].
    The loop need not terminate, so it runs on fuel: [None] means that
    the fuel ran out with the loop condition still true. *)
Fixpoint round_up_loop (fuel : nat) (capacity requestedCapacity : Z) : option Z :=
  if capacity <? requestedCapacity then
    match fuel with
    | O => None
    | S fuel' => round_up_loop fuel' (as_uint32 (Z.shiftl capacity 1)) requestedCapacity
    end
  else Some capacity.

Definition sizeof_HookEvent : Z := 24.

(** [HeapAlloc] is an operation of the host: [heap_alloc bytes] tells
    whether the request for [bytes] bytes is granted.  A granted block
    holds [capacity] zero-filled slots ([HEAP_ZERO_MEMORY]); the byte
    count [capacity * sizeof(HookEvent)] is taken in a [size_t] wide
    enough for it. *)
Definition RingBuffer_Init (fuel : nat) (heap_alloc : Z -> bool)
    (rb : RingBuffer) (requestedCapacity : Z)
    : option (BOOL * RingBuffer * list OsCall) :=
  match round_up_loop fuel 1 requestedCapacity with
  | None => None
  | Some cap =>
    let bytes := cap * sizeof_HookEvent in
    if heap_alloc bytes then
      Some (TRUE,
            {| buffer := Some (replicate (Z.to_nat cap) zero_event);
               capacity := cap;
               mask := as_uint32 (cap - 1);
               head := 0;
               tail := 0 |},
            [HeapAlloc bytes true])
    else
      Some (FALSE,
            {| buffer := None; capacity := capacity rb; mask := mask rb;
               head := head rb; tail := tail rb |},
            [HeapAlloc bytes false])
  end.

(** ** RingBuffer_Destroy ([ringbuffer.h], lines 82-89) *)

Definition RingBuffer_Destroy (rb : RingBuffer) : RingBuffer * list OsCall :=
  match buffer rb with
  | Some _ =>
    ({| buffer := None; capacity := capacity rb; mask := mask rb;
        head := head rb; tail := tail rb |}, [HeapFree])
  | None => (rb, [])
  end.

(** ** RingBuffer_Write ([ringbuffer.h], lines 95-110) *)

(** [rb->buffer[i] = *evt].  The index is always below the length on
    well-formed states; outside it the C code has no defined behaviour
    and the model leaves the block unchanged, as it does for a null
    [buffer]. *)
Definition store_slot (b : option (list HookEvent)) (i : Z) (evt : HookEvent)
    : option (list HookEvent) :=
  match b with
  | Some slots => Some (<[Z.to_nat i := evt]> slots)
  | None => None
  end.

(** [rb->buffer[i]] as an rvalue.  On well-formed states the block is
    live and the index is below its length.  For a null [buffer] or an
    index past the block the C code has no defined behaviour (it faults);
    the value given here for those cases only makes the function total,
    and every statement that reads a slot assumes a well-formed state. *)
Definition load_slot (b : option (list HookEvent)) (i : Z) : HookEvent :=
  match b with
  | Some slots => slots !!! Z.to_nat i
  | None => zero_event
  end.

Definition RingBuffer_Write (rb : RingBuffer) (evt : HookEvent) : RingBuffer :=
  let '(head1, head) := InterlockedCompareExchange (head rb) 0 0 in
  let nextHead := as_LONG (Z.land (as_uint32 (head + 1)) (mask rb)) in
  let '(tail1, tail) := InterlockedCompareExchange (tail rb) 0 0 in
  let tail2 :=
    if nextHead =? tail then
      fst (InterlockedCompareExchange tail1
             (as_LONG (Z.land (as_uint32 (tail + 1)) (mask rb))) tail)
    else tail1 in
  let buffer1 := store_slot (buffer rb) (Z.land (as_uint32 head) (mask rb)) evt in
  let '(head2, _) := InterlockedExchange head1 nextHead in
  {| buffer := buffer1; capacity := capacity rb; mask := mask rb;
     head := head2; tail := tail2 |}.

(** ** RingBuffer_ReadBatch ([ringbuffer.h], lines 116-137) *)

(** The loop [while (tail != head && count < maxEvents)].  [count]
    starts at 0 and grows by one per iteration, so [count < maxEvents]
    holds exactly while [budget = maxEvents - count] is positive; the
    loop recurses on that budget.  [out] is the prefix
    [outEvents[0 .. count)] written so far. *)
Fixpoint read_loop (rb : RingBuffer) (head : Z) (budget : nat)
    (tail count : Z) (out : list HookEvent) : Z * Z * list HookEvent :=
  match budget with
  | O => (tail, count, out)
  | S budget' =>
    if negb (tail =? head) then
      read_loop rb head budget'
        (as_LONG (Z.land (as_uint32 (tail + 1)) (mask rb)))
        (as_uint32 (count + 1))
        (out ++ [load_slot (buffer rb) (Z.land (as_uint32 tail) (mask rb))])
    else (tail, count, out)
  end.

(** The same loop with its two tests as written, run on fuel.  Lemma
    [read_loop_literal_budget] shows that it always stops and agrees with
    [read_loop]. *)
Fixpoint read_loop_literal (fuel : nat) (rb : RingBuffer)
    (head maxEvents tail count : Z) (out : list HookEvent)
    : option (Z * Z * list HookEvent) :=
  if negb (tail =? head) && (count <? maxEvents) then
    match fuel with
    | O => None
    | S fuel' =>
      read_loop_literal fuel' rb head maxEvents
        (as_LONG (Z.land (as_uint32 (tail + 1)) (mask rb)))
        (as_uint32 (count + 1))
        (out ++ [load_slot (buffer rb) (Z.land (as_uint32 tail) (mask rb))])
    end
  else Some (tail, count, out).

(** Result: the count returned, the events copied to [outEvents], and
    the new state. *)
Definition RingBuffer_ReadBatch (rb : RingBuffer) (maxEvents : Z)
    : Z * list HookEvent * RingBuffer :=
  let '(tail1, tail) := InterlockedCompareExchange (tail rb) 0 0 in
  let '(head1, head) := InterlockedCompareExchange (head rb) 0 0 in
  let '(tail', count, out) := read_loop rb head (Z.to_nat maxEvents) tail 0 [] in
  let tail2 :=
    if 0 <? count then fst (InterlockedExchange tail1 tail') else tail1 in
  (count, out,
   {| buffer := buffer rb; capacity := capacity rb; mask := mask rb;
      head := head1; tail := tail2 |}).

(** ** The hook DLL ([hook.c]) *)

(** The module's static variables. *)
Record HookDll := {
  g_hModule : Z;
  g_keyboardHook : HHOOK;
  g_mouseHook : HHOOK;
  g_ringBuffer : RingBuffer;
  g_initialized : BOOL
}.

(** The statics as the loader leaves them. *)
Definition HookDll_static : HookDll :=
  {| g_hModule := NULL; g_keyboardHook := NULL; g_mouseHook := NULL;
     g_ringBuffer := RingBuffer_static; g_initialized := FALSE |}.

Definition WH_KEYBOARD_LL : Z := 13.
Definition WH_MOUSE_LL : Z := 14.

(** What the host answers during one call of [HookDll_Initialize]: whether
    a heap request is granted, and the handle (or [NULL]) returned for a
    hook of a given kind. *)
Record Host := {
  host_HeapAlloc : Z -> bool;
  host_SetWindowsHookExW : Z -> HHOOK
}.

(** A C condition on a handle: non-null. *)
Definition is_set (h : HHOOK) : bool := negb (h =? NULL).

(** *** Hook callbacks ([hook.c], lines 36-72) *)

Record KBDLLHOOKSTRUCT := {
  kb_vkCode : Z; kb_scanCode : Z; kb_flags : Z; kb_time : Z
}.

Record MSLLHOOKSTRUCT := {
  ms_pt_x : Z; ms_pt_y : Z; ms_mouseData : Z; ms_time : Z
}.

Definition LowLevelKeyboardProc (st : HookDll) (nCode wParam : Z)
    (pKb : KBDLLHOOKSTRUCT) : HookDll * list OsCall :=
  let st1 :=
    if (0 <=? nCode) && g_initialized st then
      let evt :=
        {| type := HOOK_EVENT_KEYBOARD;
           timestamp_ms := kb_time pKb;
           data := keyboard
             {| Keyboard.vkCode := kb_vkCode pKb;
                Keyboard.scanCode := kb_scanCode pKb;
                Keyboard.flags := kb_flags pKb;
                Keyboard.action := as_uint32 wParam |} |} in
      {| g_hModule := g_hModule st;
         g_keyboardHook := g_keyboardHook st;
         g_mouseHook := g_mouseHook st;
         g_ringBuffer := RingBuffer_Write (g_ringBuffer st) evt;
         g_initialized := g_initialized st |}
    else st in
  (st1, [CallNextHookEx (g_keyboardHook st) nCode]).

Definition LowLevelMouseProc (st : HookDll) (nCode wParam : Z)
    (pMs : MSLLHOOKSTRUCT) : HookDll * list OsCall :=
  let st1 :=
    if (0 <=? nCode) && g_initialized st then
      let evt :=
        {| type := HOOK_EVENT_MOUSE;
           timestamp_ms := ms_time pMs;
           data := mouse
             {| Mouse.x := ms_pt_x pMs;
                Mouse.y := ms_pt_y pMs;
                Mouse.mouseData := ms_mouseData pMs;
                Mouse.action := as_uint32 wParam |} |} in
      {| g_hModule := g_hModule st;
         g_keyboardHook := g_keyboardHook st;
         g_mouseHook := g_mouseHook st;
         g_ringBuffer := RingBuffer_Write (g_ringBuffer st) evt;
         g_initialized := g_initialized st |}
    else st in
  (st1, [CallNextHookEx (g_mouseHook st) nCode]).

(** *** HookDll_Initialize ([hook.c], lines 83-109) *)

Definition HookDll_Initialize (fuel : nat) (host : Host) (st : HookDll)
    (bufferCapacity : Z) : option (BOOL * HookDll * list OsCall) :=
  if g_initialized st then Some (TRUE, st, [])
  else
    match RingBuffer_Init fuel (host_HeapAlloc host) (g_ringBuffer st)
            bufferCapacity with
    | None => None
    | Some (false, rb, calls) =>
      Some (FALSE,
            {| g_hModule := g_hModule st;
               g_keyboardHook := g_keyboardHook st;
               g_mouseHook := g_mouseHook st;
               g_ringBuffer := rb;
               g_initialized := g_initialized st |},
            calls)
    | Some (true, rb, calls) =>
      let keyboardHook := host_SetWindowsHookExW host WH_KEYBOARD_LL in
      let mouseHook := host_SetWindowsHookExW host WH_MOUSE_LL in
      let calls1 :=
        calls ++ [SetWindowsHookExW WH_KEYBOARD_LL keyboardHook;
                  SetWindowsHookExW WH_MOUSE_LL mouseHook] in
      if negb (is_set keyboardHook) || negb (is_set mouseHook) then
        let calls2 :=
          calls1
          ++ (if is_set keyboardHook
              then [UnhookWindowsHookEx keyboardHook] else [])
          ++ (if is_set mouseHook
              then [UnhookWindowsHookEx mouseHook] else []) in
        let '(rb', calls3) := RingBuffer_Destroy rb in
        Some (FALSE,
              {| g_hModule := g_hModule st;
                 g_keyboardHook := NULL;
                 g_mouseHook := NULL;
                 g_ringBuffer := rb';
                 g_initialized := g_initialized st |},
              calls2 ++ calls3)
      else
        Some (TRUE,
              {| g_hModule := g_hModule st;
                 g_keyboardHook := keyboardHook;
                 g_mouseHook := mouseHook;
                 g_ringBuffer := rb;
                 g_initialized := TRUE |},
              calls1)
    end.

(** *** HookDll_ReadEvents ([hook.c], lines 119-126) *)

(** [outEvents_given] tells whether the caller passed a non-null
    destination. *)
Definition HookDll_ReadEvents (st : HookDll) (outEvents_given : bool)
    (maxEvents : Z) : Z * list HookEvent * HookDll :=
  if negb (g_initialized st) || negb outEvents_given || (maxEvents =? 0) then
    (0, [], st)
  else
    let '(count, out, rb) := RingBuffer_ReadBatch (g_ringBuffer st) maxEvents in
    (count, out,
     {| g_hModule := g_hModule st;
        g_keyboardHook := g_keyboardHook st;
        g_mouseHook := g_mouseHook st;
        g_ringBuffer := rb;
        g_initialized := g_initialized st |}).

(** *** HookDll_Shutdown ([hook.c], lines 132-152) *)

Definition HookDll_Shutdown (st : HookDll) : HookDll * list OsCall :=
  if negb (g_initialized st) then (st, [])
  else
    let calls1 :=
      if is_set (g_keyboardHook st)
      then [UnhookWindowsHookEx (g_keyboardHook st)] else [] in
    let calls2 :=
      if is_set (g_mouseHook st)
      then [UnhookWindowsHookEx (g_mouseHook st)] else [] in
    let '(rb, calls3) := RingBuffer_Destroy (g_ringBuffer st) in
    ({| g_hModule := g_hModule st;
        g_keyboardHook := NULL;
        g_mouseHook := NULL;
        g_ringBuffer := rb;
        g_initialized := FALSE |},
     calls1 ++ calls2 ++ calls3).

(** *** HookDll_IsHealthy ([hook.c], lines 160-163) *)

Definition HookDll_IsHealthy (st : HookDll) : BOOL :=
  g_initialized st && is_set (g_keyboardHook st) && is_set (g_mouseHook st).

(** ** Resources outstanding after a sequence of host calls *)

(** Removes the first occurrence of a handle. *)
Fixpoint release_hook (h : HHOOK) (held : list HHOOK) : list HHOOK :=
  match held with
  | [] => []
  | h' :: rest => if h' =? h then rest else h' :: release_hook h rest
  end.

(** The hook handles registered and not yet unregistered. *)
Fixpoint hooks_held (calls : list OsCall) (held : list HHOOK) : list HHOOK :=
  match calls with
  | [] => held
  | SetWindowsHookExW _ h :: rest =>
    hooks_held rest (if is_set h then h :: held else held)
  | UnhookWindowsHookEx h :: rest => hooks_held rest (release_hook h held)
  | _ :: rest => hooks_held rest held
  end.

Definition is_HeapFree (c : OsCall) : bool :=
  match c with HeapFree => true | _ => false end.

Definition is_granted_HeapAlloc (c : OsCall) : bool :=
  match c with HeapAlloc _ true => true | _ => false end.

(** The number of calls in a sequence that satisfy a test. *)
Definition count_calls (p : OsCall -> bool) (calls : list OsCall) : nat :=
  length (filter (fun c => p c = true) calls).

(** Heap blocks granted minus heap blocks freed. *)
Definition blocks_held (calls : list OsCall) : Z :=
  Z.of_nat (count_calls is_granted_HeapAlloc calls)
  - Z.of_nat (count_calls is_HeapFree calls).

(** ** Observers used by the statements *)

(** Well-formed states: what [RingBuffer_Init] establishes and every
    operation keeps. *)
Record wf (rb : RingBuffer) : Prop := {
  wf_capacity : exists k, 0 <= k <= 31 /\ capacity rb = 2 ^ k;
  wf_mask : mask rb = capacity rb - 1;
  wf_head : 0 <= head rb < capacity rb;
  wf_tail : 0 <= tail rb < capacity rb;
  wf_buffer : exists slots,
      buffer rb = Some slots /\ Z.of_nat (length slots) = capacity rb
}.

(** The state is full when the slot after [head] is the one [tail]
    points to: the test [nextHead == tail] of [RingBuffer_Write]. *)
Definition is_full (rb : RingBuffer) : Prop :=
  as_LONG (Z.land (as_uint32 (head rb + 1)) (mask rb)) = tail rb.

(** The events a consumer still gets: the result of draining the buffer
    with a batch as large as the buffer. *)
Definition retained (rb : RingBuffer) : list HookEvent :=
  snd (fst (RingBuffer_ReadBatch rb (capacity rb))).

(** The slots from [tail] up to [head], in read order. *)
Definition window (b : option (list HookEvent)) (c t : Z) (n : nat)
    : list HookEvent :=
  map (fun k => load_slot b ((t + Z.of_nat k) mod c)) (seq 0 n).

Definition pending (rb : RingBuffer) : nat :=
  Z.to_nat ((head rb - tail rb) mod capacity rb).

Definition unread (rb : RingBuffer) : list HookEvent :=
  window (buffer rb) (capacity rb) (tail rb) (pending rb).

(** The last [n] elements of a list. *)
Definition keep_last {A} (n : nat) (l : list A) : list A :=
  drop (length l - n) l.

(** A producer writing a sequence of events, oldest first. *)
Definition write_all (rb : RingBuffer) (evts : list HookEvent) : RingBuffer :=
  fold_left RingBuffer_Write evts rb.

(** Operations of the two sides of the channel. *)
Inductive Op :=
| OpWrite (evt : HookEvent)
| OpReadBatch (maxEvents : Z).

Definition step (rb : RingBuffer) (op : Op) : RingBuffer :=
  match op with
  | OpWrite evt => RingBuffer_Write rb evt
  | OpReadBatch maxEvents => snd (RingBuffer_ReadBatch rb maxEvents)
  end.

Definition run (rb : RingBuffer) (ops : list Op) : RingBuffer :=
  fold_left step ops rb.

(** [c] is the smallest power of two that is at least [m]. *)
Definition smallest_pow2_ge (c m : Z) : Prop :=
  (exists j, 0 <= j /\ c = 2 ^ j) /\ m <= c /\
  forall i, 0 <= i -> m <= 2 ^ i -> c <= 2 ^ i.

(** ** Sample inputs *)

(** A keyboard event told apart by its tag. *)
Definition tagged (n : Z) : HookEvent :=
  {| type := HOOK_EVENT_KEYBOARD; timestamp_ms := n;
     data := keyboard {| Keyboard.vkCode := n; Keyboard.scanCode := 0;
                         Keyboard.flags := 0; Keyboard.action := 256 |} |}.

Definition tagged_upto (n : nat) : list HookEvent :=
  map (fun k => tagged (Z.of_nat k)) (seq 1 n).

(** A heap that grants every request. *)
Definition always_grant (bytes : Z) : bool := true.

(** The channel a successful [RingBuffer_Init] yields for a request, on a
    heap that grants it. *)
Definition fresh_channel (requestedCapacity : Z) : RingBuffer :=
  match RingBuffer_Init 31 always_grant RingBuffer_static requestedCapacity with
  | Some (_, rb, _) => rb
  | None => RingBuffer_static
  end.

(** A host on which both registrations succeed, and one on which the
    mouse registration is refused. *)
Definition host_ok : Host :=
  {| host_HeapAlloc := always_grant;
     host_SetWindowsHookExW := fun idHook => 4096 + idHook |}.

Definition host_no_mouse : Host :=
  {| host_HeapAlloc := always_grant;
     host_SetWindowsHookExW :=
       fun idHook => if idHook =? WH_MOUSE_LL then NULL else 4096 + idHook |}.

(** The session after a successful [HookDll_Initialize(8)] on [host_ok]. *)
Definition active_session : HookDll :=
  match HookDll_Initialize 31 host_ok HookDll_static 8 with
  | Some (_, st, _) => st
  | None => HookDll_static
  end.

(** ** The channel as a bounded queue *)

(** A batch size a caller can pass: a [uint32_t]. *)
Definition valid_op (op : Op) : Prop :=
  match op with
  | OpWrite _ => True
  | OpReadBatch maxEvents => 0 <= maxEvents < 2 ^ 32
  end.

(** The queue of unread events, oldest first, under one operation on a
    channel of capacity [c]: a write appends and keeps the newest
    [c - 1]; a batch read removes up to [maxEvents] from the front. *)
Definition queue_step (c : Z) (q : list HookEvent) (op : Op) : list HookEvent :=
  match op with
  | OpWrite evt => keep_last (Z.to_nat (c - 1)) (q ++ [evt])
  | OpReadBatch maxEvents => drop (Z.to_nat maxEvents) q
  end.

Definition queue_run (c : Z) (q : list HookEvent) (ops : list Op)
    : list HookEvent :=
  fold_left (queue_step c) ops q.

(** The events a sequence of operations writes, in order. *)
Fixpoint written (ops : list Op) : list HookEvent :=
  match ops with
  | [] => []
  | OpWrite evt :: rest => evt :: written rest
  | OpReadBatch _ :: rest => written rest
  end.

(** A heap that refuses every request. *)
Definition never_grant (bytes : Z) : bool := false.

Definition host_no_memory : Host :=
  {| host_HeapAlloc := never_grant;
     host_SetWindowsHookExW := fun idHook => 4096 + idHook |}.

(** ** The capture path *)

(** The events the two callbacks build from the record the host passes. *)
Definition keyboard_event (wParam : Z) (pKb : KBDLLHOOKSTRUCT) : HookEvent :=
  {| type := HOOK_EVENT_KEYBOARD;
     timestamp_ms := kb_time pKb;
     data := keyboard
       {| Keyboard.vkCode := kb_vkCode pKb;
          Keyboard.scanCode := kb_scanCode pKb;
          Keyboard.flags := kb_flags pKb;
          Keyboard.action := as_uint32 wParam |} |}.

Definition mouse_event (wParam : Z) (pMs : MSLLHOOKSTRUCT) : HookEvent :=
  {| type := HOOK_EVENT_MOUSE;
     timestamp_ms := ms_time pMs;
     data := mouse
       {| Mouse.x := ms_pt_x pMs;
          Mouse.y := ms_pt_y pMs;
          Mouse.mouseData := ms_mouseData pMs;
          Mouse.action := as_uint32 wParam |} |}.

(** One invocation of a callback by the host. *)
Inductive RawInput :=
| RawKeyboard (nCode wParam : Z) (pKb : KBDLLHOOKSTRUCT)
| RawMouse (nCode wParam : Z) (pMs : MSLLHOOKSTRUCT).

Definition deliver (st : HookDll) (i : RawInput) : HookDll :=
  match i with
  | RawKeyboard nCode wParam pKb => fst (LowLevelKeyboardProc st nCode wParam pKb)
  | RawMouse nCode wParam pMs => fst (LowLevelMouseProc st nCode wParam pMs)
  end.

Definition deliver_all (st : HookDll) (inputs : list RawInput) : HookDll :=
  fold_left deliver inputs st.

(** The event an invocation stands for, if the host asks for it to be
    processed ([nCode >= 0]). *)
Definition captured (i : RawInput) : list HookEvent :=
  match i with
  | RawKeyboard nCode wParam pKb =>
    if 0 <=? nCode then [keyboard_event wParam pKb] else []
  | RawMouse nCode wParam pMs =>
    if 0 <=? nCode then [mouse_event wParam pMs] else []
  end.

(** *** DllMain ([hook.c], lines 167-180) *)

Definition DLL_PROCESS_ATTACH : Z := 1.
Definition DLL_PROCESS_DETACH : Z := 0.

(** The calls [DllMain] makes: its own, and those of the shutdown it
    runs on detach. *)
Inductive LoaderCall :=
| DisableThreadLibraryCalls (hModule : Z)
| DuringShutdown (c : OsCall).

Definition DllMain (st : HookDll) (hModule ul_reason_for_call : Z)
    : BOOL * HookDll * list LoaderCall :=
  if ul_reason_for_call =? DLL_PROCESS_ATTACH then
    (TRUE,
     {| g_hModule := hModule;
        g_keyboardHook := g_keyboardHook st;
        g_mouseHook := g_mouseHook st;
        g_ringBuffer := g_ringBuffer st;
        g_initialized := g_initialized st |},
     [DisableThreadLibraryCalls hModule])
  else if ul_reason_for_call =? DLL_PROCESS_DETACH then
    let '(st', calls) := HookDll_Shutdown st in
    (TRUE, st', map DuringShutdown calls)
  else (TRUE, st, []).

(** ** Sessions *)

(** What every state the DLL can reach satisfies: an Active session
    holds both handles and a well-formed live channel; an Uninitialized
    one holds no handle and no buffer. *)
Definition session_inv (st : HookDll) : Prop :=
  if g_initialized st then
    wf (g_ringBuffer st) /\
    is_set (g_keyboardHook st) = true /\ is_set (g_mouseHook st) = true
  else
    g_keyboardHook st = NULL /\ g_mouseHook st = NULL /\
    buffer (g_ringBuffer st) = None.

(** The entry points of the DLL, as the managed process, the host's hook
    dispatcher and the loader call them. *)
Inductive SessionOp :=
| CallInitialize (fuel : nat) (host : Host) (bufferCapacity : Z)
| CallReadEvents (outEvents_given : bool) (maxEvents : Z)
| CallShutdown
| CallHook (i : RawInput)
| CallDllMain (hModule ul_reason_for_call : Z).

(** One call; [None] when [HookDll_Initialize] does not return. *)
Definition session_step (st : HookDll) (op : SessionOp) : option HookDll :=
  match op with
  | CallInitialize fuel host n =>
    match HookDll_Initialize fuel host st n with
    | Some (_, st', _) => Some st'
    | None => None
    end
  | CallReadEvents given maxEvents =>
    Some (snd (HookDll_ReadEvents st given maxEvents))
  | CallShutdown => Some (fst (HookDll_Shutdown st))
  | CallHook i => Some (deliver st i)
  | CallDllMain hModule reason => Some (snd (fst (DllMain st hModule reason)))
  end.

Fixpoint session_run (st : HookDll) (ops : list SessionOp) : option HookDll :=
  match ops with
  | [] => Some st
  | op :: rest =>
    match session_step st op with
    | Some st' => session_run st' rest
    | None => None
    end
  end.

(** ** Arithmetic of the 32-bit conversions and of the mask *)

Lemma as_uint32_small z : 0 <= z < 2 ^ 32 -> as_uint32 z = z.
Proof. intros H. unfold as_uint32. now apply Z.mod_small. Qed.

Lemma as_LONG_small z : - 2 ^ 31 <= z < 2 ^ 31 -> as_LONG z = z.
Proof.
  intros H. unfold as_LONG.
  rewrite Z.mod_small; lia.
Qed.

Lemma pow2_pos k : 0 <= k -> 0 < 2 ^ k.
Proof. intros. apply Z.pow_pos_nonneg; lia. Qed.

Lemma pow2_le_31 k : 0 <= k <= 31 -> 0 < 2 ^ k <= 2 ^ 31.
Proof.
  intros H. split; [apply pow2_pos; lia|].
  apply Z.pow_le_mono_r; lia.
Qed.

Lemma land_mask a k : 0 <= k -> Z.land a (2 ^ k - 1) = a mod 2 ^ k.
Proof.
  intros Hk. rewrite <- Z.land_ones by assumption.
  now rewrite Z.ones_equiv, <- Z.sub_1_r.
Qed.

(** [a mod c] for [a] within one period of [[0, c)]. *)
Lemma mod_near c a :
  0 < c -> - c <= a < 2 * c ->
  (a < 0 /\ a mod c = a + c) \/
  (0 <= a < c /\ a mod c = a) \/
  (c <= a /\ a mod c = a - c).
Proof.
  intros Hc Ha.
  destruct (Z.ltb_spec a 0); [|destruct (Z.ltb_spec a c)].
  - left. split; [assumption|]. symmetry. apply (Z.mod_unique a c (-1)); lia.
  - right. left. split; [lia|]. symmetry. apply (Z.mod_unique a c 0); lia.
  - right. right. split; [lia|]. symmetry. apply (Z.mod_unique a c 1); lia.
Qed.

(** The index expression [(i + 1) & mask] with its conversions. *)
Lemma next_index c k i :
  0 <= k <= 31 -> c = 2 ^ k -> 0 <= i < c ->
  as_LONG (Z.land (as_uint32 (i + 1)) (c - 1)) = (i + 1) mod c.
Proof.
  intros Hk -> Hi. pose proof (pow2_le_31 k Hk) as Hc.
  assert (2 ^ 31 < 2 ^ 32) by (vm_compute; reflexivity).
  rewrite as_uint32_small by lia.
  rewrite land_mask by lia.
  apply as_LONG_small.
  pose proof (Z.mod_pos_bound (i + 1) (2 ^ k)). lia.
Qed.

(** The index expression [i & mask] with its conversion. *)
Lemma this_index c k i :
  0 <= k <= 31 -> c = 2 ^ k -> 0 <= i < c ->
  Z.land (as_uint32 i) (c - 1) = i.
Proof.
  intros Hk -> Hi. pose proof (pow2_le_31 k Hk) as Hc.
  assert (2 ^ 31 < 2 ^ 32) by (vm_compute; reflexivity).
  rewrite as_uint32_small by lia.
  rewrite land_mask by lia.
  apply Z.mod_small; lia.
Qed.

Lemma load_only x : InterlockedCompareExchange x 0 0 = (x, x).
Proof.
  unfold InterlockedCompareExchange.
  destruct (Z.eqb_spec x 0); congruence.
Qed.

(** ** The rounding loop *)

Lemma shift_double k :
  0 <= k < 31 -> as_uint32 (Z.shiftl (2 ^ k) 1) = 2 ^ (k + 1).
Proof.
  intros Hk. rewrite Z.shiftl_mul_pow2 by lia.
  rewrite Z.pow_add_r by lia.
  apply as_uint32_small.
  pose proof (pow2_le_31 (k + 1) ltac:(lia)) as H.
  rewrite Z.pow_add_r in H by lia.
  assert (2 ^ 31 < 2 ^ 32) by (vm_compute; reflexivity). lia.
Qed.

Lemma shift_wraps : as_uint32 (Z.shiftl (2 ^ 31) 1) = 0.
Proof. vm_compute. reflexivity. Qed.

Lemma shift_zero : as_uint32 (Z.shiftl 0 1) = 0.
Proof. reflexivity. Qed.

(** Where the loop stops on its own, it stops at the first power of two
    that reaches the request. *)
Lemma round_up_loop_result fuel k n c :
  0 <= k <= 31 -> (k = 0 \/ 2 ^ (k - 1) < n) ->
  round_up_loop fuel (2 ^ k) n = Some c ->
  exists j, 0 <= j <= 31 /\ c = 2 ^ j /\ n <= c /\ (j = 0 \/ 2 ^ (j - 1) < n).
Proof.
  revert k. induction fuel as [|fuel IH]; intros k Hk Hlow Hrun.
  - simpl in Hrun. destruct (Z.ltb_spec (2 ^ k) n); [discriminate|].
    injection Hrun as <-. exists k. auto.
  - simpl in Hrun. destruct (Z.ltb_spec (2 ^ k) n) as [Hlt|Hge].
    + destruct (Z.eq_dec k 31) as [->|Hne].
      * rewrite shift_wraps in Hrun. exfalso.
        clear IH Hlow. revert Hrun. generalize fuel. clear fuel.
        induction fuel as [|fuel IHf]; simpl;
          (destruct (Z.ltb_spec 0 n); [|lia]); [discriminate|].
        rewrite shift_zero. exact IHf.
      * rewrite shift_double in Hrun by lia.
        apply (IH (k + 1)); [lia| |exact Hrun].
        right. replace (k + 1 - 1) with k by lia. exact Hlt.
    + injection Hrun as <-. exists k. auto.
Qed.

(** With a request of at most [2^31] the loop stops within [31 - k]
    doublings. *)
Lemma round_up_loop_stops fuel k n :
  0 <= k <= 31 -> n <= 2 ^ 31 -> (31 - Z.to_nat k <= fuel)%nat ->
  exists c, round_up_loop fuel (2 ^ k) n = Some c.
Proof.
  revert k. induction fuel as [|fuel IH]; intros k Hk Hn Hfuel.
  - assert (k = 31) as -> by lia. simpl.
    destruct (Z.ltb_spec (2 ^ 31) n); [lia|eauto].
  - simpl. destruct (Z.ltb_spec (2 ^ k) n) as [Hlt|Hge]; [|eauto].
    assert (k < 31).
    { destruct (Z.eq_dec k 31) as [->|]; lia. }
    rewrite shift_double by lia.
    apply IH; lia.
Qed.

(** With a larger request the capacity wraps to 0 and the loop never
    stops. *)
Lemma round_up_loop_spins fuel c n :
  2 ^ 31 < n -> (c = 0 \/ exists k, 0 <= k <= 31 /\ c = 2 ^ k) ->
  round_up_loop fuel c n = None.
Proof.
  intros Hn. revert c. induction fuel as [|fuel IH]; intros c Hc.
  - simpl. destruct (Z.ltb_spec c n) as [|Hge]; [reflexivity|].
    destruct Hc as [->|(k & Hk & ->)]; [lia|].
    pose proof (pow2_le_31 k Hk). lia.
  - simpl. destruct (Z.ltb_spec c n) as [|Hge].
    + apply IH. destruct Hc as [->|(k & Hk & ->)]; [now left|].
      destruct (Z.eq_dec k 31) as [->|].
      * left. apply shift_wraps.
      * right. exists (k + 1). split; [lia|]. apply shift_double. lia.
    + destruct Hc as [->|(k & Hk & ->)]; [lia|].
      pose proof (pow2_le_31 k Hk). lia.
Qed.

(** ** RingBuffer_Init *)

Lemma smallest_pow2_ge_intro j n :
  0 <= j -> n <= 2 ^ j -> (j = 0 \/ 2 ^ (j - 1) < n) ->
  smallest_pow2_ge (2 ^ j) (Z.max 1 n).
Proof.
  intros Hj Hn Hlow. pose proof (pow2_pos j Hj) as Hpos.
  split; [eauto|]. split; [lia|].
  intros i Hi Hle. destruct Hlow as [->|Hlow].
  - pose proof (pow2_pos i Hi). simpl. lia.
  - apply Z.pow_le_mono_r; [lia|].
    assert (j - 1 < i); [|lia].
    apply (Z.pow_lt_mono_r_iff 2); lia.
Qed.

(** What a successful [RingBuffer_Init] leaves behind. *)
Lemma RingBuffer_Init_success fuel heap_alloc rb0 n rb calls :
  RingBuffer_Init fuel heap_alloc rb0 n = Some (TRUE, rb, calls) ->
  wf rb /\ head rb = 0 /\ tail rb = 0 /\
  smallest_pow2_ge (capacity rb) (Z.max 1 n) /\
  buffer rb = Some (replicate (Z.to_nat (capacity rb)) zero_event) /\
  calls = [HeapAlloc (capacity rb * sizeof_HookEvent) true].
Proof.
  unfold RingBuffer_Init. intros H.
  destruct (round_up_loop fuel 1 n) as [c|] eqn:Hloop; [|discriminate].
  destruct (heap_alloc (c * sizeof_HookEvent)); [|discriminate].
  injection H as <- <-.
  apply (round_up_loop_result fuel 0) in Hloop; [|lia|now left].
  destruct Hloop as (j & Hj & -> & Hn & Hlow).
  pose proof (pow2_le_31 j Hj) as Hc.
  assert (2 ^ 31 < 2 ^ 32) by (vm_compute; reflexivity).
  simpl. split; [|split; [reflexivity|split; [reflexivity|split; [|split]]]].
  - split; simpl; try lia.
    + eauto.
    + apply as_uint32_small. lia.
    + eexists. split; [reflexivity|].
      rewrite length_replicate. lia.
  - apply (smallest_pow2_ge_intro j n); auto; lia.
  - reflexivity.
  - reflexivity.
Qed.

(** [RingBuffer_Init] returns whenever the request is at most [2^31]. *)
Lemma RingBuffer_Init_returns fuel heap_alloc rb0 n :
  n <= 2 ^ 31 -> (31 <= fuel)%nat ->
  exists b rb calls, RingBuffer_Init fuel heap_alloc rb0 n = Some (b, rb, calls).
Proof.
  intros Hn Hfuel. unfold RingBuffer_Init.
  destruct (round_up_loop_stops fuel 0 n) as [c Hc]; [lia|lia|simpl; lia|].
  change (2 ^ 0) with 1 in Hc. rewrite Hc.
  destruct (heap_alloc (c * sizeof_HookEvent)); eauto.
Qed.

(** ** RingBuffer_Write on well-formed states *)

Lemma RingBuffer_Write_wf_eq rb evt slots :
  wf rb -> buffer rb = Some slots ->
  RingBuffer_Write rb evt =
  {| buffer := Some (<[Z.to_nat (head rb) := evt]> slots);
     capacity := capacity rb;
     mask := mask rb;
     head := (head rb + 1) mod capacity rb;
     tail := if (head rb + 1) mod capacity rb =? tail rb
             then (tail rb + 1) mod capacity rb else tail rb |}.
Proof.
  intros [(k & Hk & Hc) Hm Hh Ht _] Hb.
  unfold RingBuffer_Write. rewrite !load_only.
  rewrite Hm, !(next_index _ k), (this_index _ k) by assumption.
  rewrite Hb. simpl.
  unfold InterlockedCompareExchange. rewrite Z.eqb_refl.
  destruct (_ =? _); reflexivity.
Qed.

Lemma RingBuffer_Write_wf rb evt : wf rb -> wf (RingBuffer_Write rb evt).
Proof.
  intros Hwf. destruct (wf_buffer rb Hwf) as (slots & Hb & Hlen).
  rewrite (RingBuffer_Write_wf_eq rb evt slots Hwf Hb).
  destruct Hwf as [(k & Hk & Hc) Hm Hh Ht _].
  assert (0 < capacity rb) by lia.
  split; simpl; eauto.
  - apply Z.mod_pos_bound; lia.
  - destruct (_ =? _); [apply Z.mod_pos_bound; lia|lia].
  - eexists. split; [reflexivity|]. rewrite length_insert. exact Hlen.
Qed.

(** ** Index arithmetic modulo the capacity *)

(** Records, for every [a mod c] in sight whose argument is within one
    period, which of the three cases of [mod_near] applies; [lia] then
    does the case analysis. *)
Ltac note_mod c a :=
  lazymatch goal with
  | H : (a < 0 /\ a mod c = a + c) \/ _ |- _ => fail
  | _ => pose proof (mod_near c a ltac:(lia) ltac:(lia))
  end.

Ltac mod_cases c :=
  repeat match goal with
         | |- context [?a mod c] => note_mod c a
         | H : context [?a mod c] |- _ => note_mod c a
         end;
  try lia.

Lemma distance_next c h t :
  0 < c -> 0 <= h < c -> 0 <= t < c -> t <> h ->
  1 <= (h - t) mod c /\ (h - (t + 1) mod c) mod c = (h - t) mod c - 1.
Proof. intros Hc Hh Ht Hne. mod_cases c. Qed.

Lemma distance_self c t : 0 < c -> (t - t) mod c = 0.
Proof. intros Hc. rewrite Z.sub_diag. now apply Z.mod_0_l, Z.neq_sym, Z.lt_neq. Qed.

Lemma distance_lt c h t : 0 < c -> 0 <= (h - t) mod c < c.
Proof. intros. now apply Z.mod_pos_bound. Qed.

(** Walking the distance from [tail] leads to [head] and not earlier. *)
Lemma walk_reaches c h t :
  0 < c -> 0 <= h < c -> 0 <= t < c -> (t + (h - t) mod c) mod c = h.
Proof. intros Hc Hh Ht; try intros Hx; mod_cases c. Qed.

Lemma walk_misses c h t k :
  0 < c -> 0 <= h < c -> 0 <= t < c -> 0 <= k < (h - t) mod c ->
  (t + k) mod c <> h.
Proof. intros Hc Hh Ht Hk. mod_cases c. Qed.

Lemma distance_grows c h t :
  0 < c -> 0 <= h < c -> 0 <= t < c -> (h + 1) mod c <> t ->
  ((h + 1) mod c - t) mod c = (h - t) mod c + 1.
Proof. intros Hc Hh Ht; try intros Hx; mod_cases c. Qed.

Lemma distance_full c h t :
  0 < c -> 0 <= h < c -> 0 <= t < c -> (h + 1) mod c = t ->
  (h - t) mod c = c - 1 /\ ((h + 1) mod c - (t + 1) mod c) mod c = c - 1.
Proof. intros Hc Hh Ht; try intros Hx; mod_cases c. Qed.

(** ** Windows of slots *)

Lemma window_length b c t n : length (window b c t n) = n.
Proof. unfold window. now rewrite length_map, length_seq. Qed.

Lemma window_snoc b c t n :
  window b c t (S n) = window b c t n ++ [load_slot b ((t + Z.of_nat n) mod c)].
Proof. unfold window. rewrite seq_S, map_app. reflexivity. Qed.

Lemma window_cons b c t n :
  0 < c ->
  window b c t (S n) = load_slot b (t mod c) :: window b c ((t + 1) mod c) n.
Proof.
  intros Hc. unfold window. simpl. f_equal.
  - now rewrite Z.add_0_r.
  - rewrite <- seq_shift, map_map. apply map_ext. intros k.
    f_equal. rewrite Zplus_mod_idemp_l. f_equal. lia.
Qed.

(** Storing at an index the window does not pass leaves it unchanged. *)
Lemma window_store slots c t n i evt :
  0 < c -> 0 <= i ->
  (forall k, 0 <= k < Z.of_nat n -> (t + k) mod c <> i) ->
  window (Some (<[Z.to_nat i := evt]> slots)) c t n = window (Some slots) c t n.
Proof.
  intros Hc Hi Hmiss. unfold window. apply map_ext_in.
  intros k Hk. apply in_seq in Hk. simpl.
  apply list_lookup_total_insert_ne.
  pose proof (Z.mod_pos_bound (t + Z.of_nat k) c Hc).
  specialize (Hmiss (Z.of_nat k) ltac:(lia)). lia.
Qed.

(** ** RingBuffer_ReadBatch on well-formed states *)

(** The loop as written stops within [maxEvents - count] iterations and
    computes what the budgeted loop computes. *)
Lemma read_loop_literal_budget budget fuel rb h maxEvents t count out :
  maxEvents < 2 ^ 32 -> 0 <= count ->
  Z.to_nat (maxEvents - count) = budget -> (budget <= fuel)%nat ->
  read_loop_literal fuel rb h maxEvents t count out
  = Some (read_loop rb h budget t count out).
Proof.
  intros Hmax. revert fuel t count out.
  induction budget as [|budget IH]; intros fuel t count out Hcount Hb Hfuel.
  - assert ((count <? maxEvents) = false) as Hlt by (apply Z.ltb_ge; lia).
    destruct fuel; simpl; rewrite Hlt, andb_false_r; reflexivity.
  - assert (count < maxEvents) as Hlt by lia.
    destruct fuel as [|fuel]; [lia|]. simpl.
    rewrite (proj2 (Z.ltb_lt count maxEvents) Hlt), andb_true_r.
    destruct (negb (t =? h)); [|reflexivity].
    rewrite (as_uint32_small (count + 1)) by lia.
    apply IH; lia.
Qed.

Lemma read_loop_spec rb k h budget t count out :
  0 <= k <= 31 -> capacity rb = 2 ^ k -> mask rb = capacity rb - 1 ->
  0 <= h < capacity rb -> 0 <= t < capacity rb ->
  0 <= count -> count + Z.of_nat budget < 2 ^ 32 ->
  let m := Nat.min budget (Z.to_nat ((h - t) mod capacity rb)) in
  read_loop rb h budget t count out =
  ((t + Z.of_nat m) mod capacity rb, count + Z.of_nat m,
   out ++ window (buffer rb) (capacity rb) t m).
Proof.
  intros Hk Hc Hm Hh. pose proof (pow2_le_31 k Hk) as Hpos. rewrite <- Hc in Hpos.
  revert t count out.
  induction budget as [|budget IH]; intros t count out Ht Hcount Hbound; simpl.
  - rewrite Z.add_0_r, Z.mod_small, Z.add_0_r, app_nil_r by lia. reflexivity.
  - destruct (Z.eqb_spec t h) as [->|Hne]; simpl.
    + rewrite distance_self by lia. simpl.
      rewrite Z.add_0_r, Z.mod_small, Z.add_0_r, app_nil_r by lia. reflexivity.
    + destruct (distance_next (capacity rb) h t) as [Hd1 Hd2]; try lia.
      rewrite Hm, (next_index _ k), (this_index _ k) by assumption.
      rewrite as_uint32_small by lia.
      rewrite IH; [|apply Z.mod_pos_bound; lia|lia|lia].
      rewrite Hd2.
      replace (Z.to_nat ((h - t) mod capacity rb))
        with (S (Z.to_nat ((h - t) mod capacity rb - 1))) by lia.
      simpl Nat.min.
      set (m := Nat.min budget _).
      rewrite window_cons, (Z.mod_small t) by lia.
      rewrite <- app_assoc. simpl.
      rewrite Zplus_mod_idemp_l.
      replace (t + 1 + Z.of_nat m) with (t + Z.of_nat (S m)) by lia.
      replace (count + 1 + Z.of_nat m) with (count + Z.of_nat (S m)) by lia.
      reflexivity.
Qed.

Lemma RingBuffer_ReadBatch_wf_eq rb maxEvents :
  wf rb -> 0 <= maxEvents < 2 ^ 32 ->
  let m := Nat.min (Z.to_nat maxEvents) (pending rb) in
  RingBuffer_ReadBatch rb maxEvents =
  (Z.of_nat m, take (Z.to_nat maxEvents) (unread rb),
   {| buffer := buffer rb; capacity := capacity rb; mask := mask rb;
      head := head rb;
      tail := (tail rb + Z.of_nat m) mod capacity rb |}).
Proof.
  intros [(k & Hk & Hc) Hm Hh Ht _] Hmax.
  unfold RingBuffer_ReadBatch. rewrite !load_only.
  rewrite (read_loop_spec rb k) by (assumption || lia).
  fold (pending rb). simpl.
  set (m := Nat.min _ _).
  f_equal; [f_equal|].
  - unfold unread. unfold window at 2. rewrite firstn_map, take_seq.
    reflexivity.
  - f_equal. rewrite Z.add_0_l.
    destruct (Z.ltb_spec 0 (Z.of_nat m)); simpl; [reflexivity|].
    assert (m = 0%nat) as -> by lia.
    rewrite Z.add_0_r, Z.mod_small; lia.
Qed.

Lemma RingBuffer_ReadBatch_wf rb maxEvents :
  wf rb -> wf (snd (RingBuffer_ReadBatch rb maxEvents)).
Proof.
  intros [(k & Hk & Hc) Hm Hh Ht Hb].
  assert (Hloop : forall budget t count out,
             0 <= t < capacity rb ->
             0 <= fst (fst (read_loop rb (head rb) budget t count out))
             < capacity rb).
  { pose proof (pow2_le_31 k Hk) as Hpos. rewrite <- Hc in Hpos.
    induction budget as [|budget IH]; intros t count out Hr; simpl; [exact Hr|].
    destruct (negb (t =? head rb)); simpl; [|exact Hr].
    apply IH. rewrite Hm, (next_index _ k) by assumption.
    apply Z.mod_pos_bound; lia. }
  unfold RingBuffer_ReadBatch. rewrite !load_only.
  specialize (Hloop (Z.to_nat maxEvents) (tail rb) 0 [] Ht).
  destruct (read_loop _ _ _ _ _ _) as [[t' count] out]. simpl in *.
  split; simpl; eauto.
  destruct (0 <? count); simpl; assumption.
Qed.

Lemma pending_lt rb : wf rb -> Z.of_nat (pending rb) < capacity rb.
Proof.
  intros [(k & Hk & Hc) _ _ _ _]. pose proof (pow2_le_31 k Hk) as Hpos.
  unfold pending. rewrite <- Hc in Hpos.
  pose proof (distance_lt (capacity rb) (head rb) (tail rb)). lia.
Qed.

Lemma unread_length rb : length (unread rb) = pending rb.
Proof. apply window_length. Qed.

(** The events a drain returns are the slots between the two indices. *)
Lemma retained_unread rb : wf rb -> retained rb = unread rb.
Proof.
  intros Hwf. pose proof (pending_lt rb Hwf) as Hp.
  destruct (wf_capacity rb Hwf) as (k & Hk & Hc).
  pose proof (pow2_le_31 k Hk) as Hpos. rewrite <- Hc in Hpos.
  assert (2 ^ 31 < 2 ^ 32) by (vm_compute; reflexivity).
  unfold retained. rewrite RingBuffer_ReadBatch_wf_eq by (assumption || lia).
  simpl. apply take_ge. rewrite unread_length. lia.
Qed.

(** ** The effect of a write on the unread events *)

Lemma RingBuffer_Write_capacity rb evt :
  capacity (RingBuffer_Write rb evt) = capacity rb.
Proof. reflexivity. Qed.

Lemma unread_Write_room rb evt :
  wf rb -> (head rb + 1) mod capacity rb <> tail rb ->
  unread (RingBuffer_Write rb evt) = unread rb ++ [evt].
Proof.
  intros Hwf Hroom. destruct (wf_buffer rb Hwf) as (slots & Hb & Hlen).
  rewrite (RingBuffer_Write_wf_eq rb evt slots Hwf Hb).
  destruct Hwf as [(k & Hk & Hc) Hm Hh Ht _].
  pose proof (pow2_le_31 k Hk) as Hpos. rewrite <- Hc in Hpos.
  pose proof (distance_lt (capacity rb) (head rb) (tail rb)) as Hd.
  unfold unread, pending. simpl.
  destruct (Z.eqb_spec ((head rb + 1) mod capacity rb) (tail rb)); [contradiction|].
  rewrite distance_grows by lia.
  rewrite Z2Nat.inj_add, Nat.add_1_r by lia.
  rewrite window_snoc, Z2Nat.id, walk_reaches by lia.
  rewrite window_store, Hb.
  - f_equal. simpl. f_equal. apply list_lookup_total_insert_eq. lia.
  - lia.
  - lia.
  - intros j Hj. apply walk_misses; lia.
Qed.

Lemma unread_Write_full rb evt :
  wf rb -> 2 <= capacity rb -> (head rb + 1) mod capacity rb = tail rb ->
  unread (RingBuffer_Write rb evt) = drop 1 (unread rb) ++ [evt].
Proof.
  intros Hwf Htwo Hfull. destruct (wf_buffer rb Hwf) as (slots & Hb & Hlen).
  rewrite (RingBuffer_Write_wf_eq rb evt slots Hwf Hb).
  destruct Hwf as [(k & Hk & Hc) Hm Hh Ht _].
  destruct (distance_full (capacity rb) (head rb) (tail rb)) as [Hd1 Hd2];
    try lia.
  unfold unread, pending. simpl.
  destruct (Z.eqb_spec ((head rb + 1) mod capacity rb) (tail rb));
    [|contradiction].
  rewrite Hd1, Hd2.
  replace (Z.to_nat (capacity rb - 1))
    with (S (Z.to_nat (capacity rb - 2))) by lia.
  rewrite window_snoc, (window_cons _ _ (tail rb)) by lia.
  simpl. rewrite drop_0, Z2Nat.id by lia.
  rewrite window_store, Hb.
  - f_equal. simpl. f_equal.
    replace (((tail rb + 1) mod capacity rb + (capacity rb - 2)) mod capacity rb)
      with (head rb).
    + apply list_lookup_total_insert_eq. lia.
    + clear -Htwo Hh Ht Hfull. mod_cases (capacity rb).
  - lia.
  - lia.
  - intros j Hj. rewrite Z2Nat.id in Hj by lia.
    clear -Htwo Hh Ht Hj Hfull. mod_cases (capacity rb).
Qed.

Lemma unread_Write_one rb evt :
  wf rb -> capacity rb = 1 -> unread (RingBuffer_Write rb evt) = [].
Proof.
  intros Hwf Hone. destruct (wf_buffer rb Hwf) as (slots & Hb & Hlen).
  rewrite (RingBuffer_Write_wf_eq rb evt slots Hwf Hb).
  unfold unread, pending. simpl. rewrite Hone, !Z.mod_1_r. reflexivity.
Qed.

(** ** Keeping the last elements of a list *)

Lemma keep_last_all {A} n (l : list A) : (length l <= n)%nat -> keep_last n l = l.
Proof.
  intros H. unfold keep_last.
  replace (length l - n)%nat with 0%nat by lia. reflexivity.
Qed.

Lemma keep_last_app {A} n (l1 l2 : list A) :
  keep_last n (keep_last n l1 ++ l2) = keep_last n (l1 ++ l2).
Proof.
  unfold keep_last.
  rewrite <- drop_app_le by lia.
  rewrite drop_drop. f_equal.
  rewrite length_drop, !length_app. lia.
Qed.

Lemma keep_last_snoc_full {A} n (l : list A) x :
  length l = n -> (1 <= n)%nat -> keep_last n (l ++ [x]) = drop 1 l ++ [x].
Proof.
  intros Hlen Hn. unfold keep_last. rewrite length_app. simpl.
  replace (length l + 1 - n)%nat with 1%nat by lia.
  apply drop_app_le. lia.
Qed.

(** One write keeps the newest [capacity - 1] events. *)
Lemma unread_Write rb evt :
  wf rb ->
  unread (RingBuffer_Write rb evt)
  = keep_last (Z.to_nat (capacity rb - 1)) (unread rb ++ [evt]).
Proof.
  intros Hwf.
  pose proof Hwf as [(k & Hk & Hc) Hm Hh Ht _].
  pose proof (pow2_le_31 k Hk) as Hpos. rewrite <- Hc in Hpos.
  destruct (Z.eq_dec ((head rb + 1) mod capacity rb) (tail rb)) as [Hfull|Hroom].
  - destruct (distance_full (capacity rb) (head rb) (tail rb)) as [Hd _];
      try lia.
    destruct (Z.eq_dec (capacity rb) 1) as [Hone|Hmore].
    + rewrite unread_Write_one by assumption.
      rewrite Hone. simpl. unfold keep_last. rewrite Nat.sub_0_r.
      now rewrite drop_all.
    + rewrite unread_Write_full by (assumption || lia).
      rewrite keep_last_snoc_full; [reflexivity| |lia].
      rewrite unread_length. unfold pending. now rewrite Hd.
  - rewrite unread_Write_room by assumption.
    rewrite keep_last_all; [reflexivity|].
    rewrite length_app, unread_length. simpl.
    pose proof (distance_grows (capacity rb) (head rb) (tail rb)
                  ltac:(lia) Hh Ht Hroom) as Hg.
    pose proof (distance_lt (capacity rb) ((head rb + 1) mod capacity rb)
                  (tail rb) ltac:(lia)).
    pose proof (distance_lt (capacity rb) (head rb) (tail rb) ltac:(lia)).
    unfold pending. lia.
Qed.

Lemma write_all_wf rb evts : wf rb -> wf (write_all rb evts).
Proof.
  revert rb. induction evts as [|e evts IH]; intros rb Hwf; simpl; [exact Hwf|].
  apply IH, RingBuffer_Write_wf, Hwf.
Qed.

(** A sequence of writes keeps the newest [capacity - 1] events. *)
Lemma unread_write_all rb evts :
  wf rb ->
  unread (write_all rb evts)
  = keep_last (Z.to_nat (capacity rb - 1)) (unread rb ++ evts).
Proof.
  revert rb. induction evts as [|e evts IH]; intros rb Hwf; simpl.
  - rewrite app_nil_r, keep_last_all; [reflexivity|].
    rewrite unread_length. pose proof (pending_lt rb Hwf). lia.
  - rewrite IH by now apply RingBuffer_Write_wf.
    rewrite RingBuffer_Write_capacity, unread_Write by assumption.
    rewrite keep_last_app, <- app_assoc. reflexivity.
Qed.

Lemma run_wf rb ops : wf rb -> wf (run rb ops).
Proof.
  revert rb. induction ops as [|op ops IH]; intros rb Hwf; simpl; [exact Hwf|].
  apply IH. destruct op; simpl.
  - now apply RingBuffer_Write_wf.
  - now apply RingBuffer_ReadBatch_wf.
Qed.

Lemma unread_fresh rb : head rb = 0 -> tail rb = 0 -> unread rb = [].
Proof.
  intros Hh Ht. unfold unread, pending. rewrite Hh, Ht. simpl.
  rewrite Zmod_0_l. reflexivity.
Qed.

(** * The bounded event channel *)

(** C1 as stated fails when the number of writes equals the capacity:
    after four writes into a channel of capacity 4 a batch read of four
    returns the last three events only. *)
Lemma C1_counterexample_capacity_writes :
  capacity (fresh_channel 4) = 4 /\
  RingBuffer_Init 31 always_grant RingBuffer_static 4
  = Some (TRUE, fresh_channel 4, [HeapAlloc 96 true]) /\
  fst (RingBuffer_ReadBatch (write_all (fresh_channel 4) (tagged_upto 4)) 4)
  = (3, [tagged 2; tagged 3; tagged 4]) /\
  snd (fst (RingBuffer_ReadBatch (write_all (fresh_channel 4) (tagged_upto 4)) 4))
  <> tagged_upto 4.
Proof.
  split; [reflexivity|]. split; [reflexivity|]. split; [reflexivity|].
  vm_compute. discriminate.
Qed.

(** C1 (amended): for every sequence of N writes with N < capacity into
    a freshly initialised channel, followed by one RingBuffer_ReadBatch(N),
    the count returned is N and the events returned are the written
    sequence, in order. *)
Theorem C1_writes_below_capacity_read_back
    fuel heap_alloc rb0 n rb calls (evts : list HookEvent) :
  RingBuffer_Init fuel heap_alloc rb0 n = Some (TRUE, rb, calls) ->
  Z.of_nat (length evts) < capacity rb ->
  fst (RingBuffer_ReadBatch (write_all rb evts) (Z.of_nat (length evts)))
  = (Z.of_nat (length evts), evts).
Proof.
  intros Hinit Hlen.
  apply RingBuffer_Init_success in Hinit as (Hwf & Hh & Ht & _).
  destruct (wf_capacity rb Hwf) as (k & Hk & Hc).
  pose proof (pow2_le_31 k Hk) as Hpos. rewrite <- Hc in Hpos.
  assert (2 ^ 31 < 2 ^ 32) by (vm_compute; reflexivity).
  assert (Hun : unread (write_all rb evts) = evts).
  { rewrite unread_write_all, unread_fresh by assumption. simpl.
    apply keep_last_all. lia. }
  rewrite RingBuffer_ReadBatch_wf_eq by (auto using write_all_wf; lia).
  simpl. rewrite <- unread_length, Hun, Nat2Z.id, Nat.min_id, take_ge by lia.
  reflexivity.
Qed.

Lemma C1_writes_below_capacity_read_back_witness :
  fst (RingBuffer_ReadBatch (write_all (fresh_channel 4) (tagged_upto 3)) 3)
  = (3, tagged_upto 3).
Proof.
  apply (C1_writes_below_capacity_read_back 31 always_grant RingBuffer_static 4
           (fresh_channel 4) [HeapAlloc 96 true] (tagged_upto 3)).
  - reflexivity.
  - vm_compute. reflexivity.
Defined.

(** C2: a request of 10 yields capacity 16, and after 20 writes into
    the fresh channel RingBuffer_ReadBatch(16) returns 15 events: the
    last 15 written, in write order. *)
Theorem C2_request_10_keeps_last_15
    fuel heap_alloc rb0 rb calls (evts : list HookEvent) :
  RingBuffer_Init fuel heap_alloc rb0 10 = Some (TRUE, rb, calls) ->
  length evts = 20%nat ->
  capacity rb = 16 /\
  fst (RingBuffer_ReadBatch (write_all rb evts) 16) = (15, drop 5 evts).
Proof.
  intros Hinit Hlen.
  apply RingBuffer_Init_success in Hinit as (Hwf & Hh & Ht & Hsmall & _).
  assert (Hcap : capacity rb = 16).
  { destruct Hsmall as ((j & Hj & Hc) & Hge & Hmin).
    specialize (Hmin 4 ltac:(lia) ltac:(vm_compute; discriminate)).
    rewrite Hc in *. change (2 ^ 4) with 16 in Hmin.
    assert (j <= 4).
    { apply (Z.pow_le_mono_r_iff 2); [lia|lia|exact Hmin]. }
    assert (j = 0 \/ j = 1 \/ j = 2 \/ j = 3 \/ j = 4) as Hcases by lia.
    destruct Hcases as [-> | [-> | [-> | [-> | ->]]]];
      vm_compute in Hge; try reflexivity; exfalso; apply Hge; reflexivity. }
  split; [exact Hcap|].
  assert (Hun : unread (write_all rb evts) = drop 5 evts).
  { rewrite unread_write_all, unread_fresh, Hcap by assumption. simpl.
    unfold keep_last. rewrite Hlen. reflexivity. }
  rewrite RingBuffer_ReadBatch_wf_eq by (auto using write_all_wf; lia).
  simpl. rewrite <- unread_length, Hun, length_drop, Hlen.
  rewrite take_ge by (rewrite length_drop, Hlen; simpl; lia).
  reflexivity.
Qed.

Lemma C2_request_10_keeps_last_15_witness :
  capacity (fresh_channel 10) = 16 /\
  fst (RingBuffer_ReadBatch (write_all (fresh_channel 10) (tagged_upto 20)) 16)
  = (15, drop 5 (tagged_upto 20)).
Proof.
  apply (C2_request_10_keeps_last_15 31 always_grant RingBuffer_static
           (fresh_channel 10) [HeapAlloc 384 true] (tagged_upto 20)).
  - reflexivity.
  - reflexivity.
Defined.

Lemma fresh_channel_1_wf : wf (fresh_channel 1).
Proof.
  apply (RingBuffer_Init_success 31 always_grant RingBuffer_static 1
           (fresh_channel 1) [HeapAlloc 24 true]).
  reflexivity.
Qed.

(** C3 at the failing input: RingBuffer_Init with a request of 1
    returns TRUE with a channel of capacity 1, which is full in every
    state.  A write into it stores the event, leaves the read index where
    it is, and nothing is retained: the event just written is lost,
    where C3 has the retained events be the previous ones without the
    oldest, followed by the new event. *)
Theorem C3_capacity_one_write_loses_event :
  RingBuffer_Init 31 always_grant RingBuffer_static 1
  = Some (TRUE, fresh_channel 1, [HeapAlloc 24 true]) /\
  capacity (fresh_channel 1) = 1 /\
  wf (fresh_channel 1) /\ is_full (fresh_channel 1) /\
  retained (fresh_channel 1) = [] /\
  tail (RingBuffer_Write (fresh_channel 1) (tagged 7)) = tail (fresh_channel 1) /\
  retained (RingBuffer_Write (fresh_channel 1) (tagged 7)) = [] /\
  retained (RingBuffer_Write (fresh_channel 1) (tagged 7))
  <> drop 1 (retained (fresh_channel 1)) ++ [tagged 7].
Proof.
  split; [reflexivity|]. split; [reflexivity|].
  split; [exact fresh_channel_1_wf|].
  split; [reflexivity|]. split; [reflexivity|]. split; [reflexivity|].
  split; [reflexivity|].
  vm_compute. discriminate.
Qed.

(** Away from capacity 1 a write into a full channel behaves as the
    header comment of RingBuffer_Write says: in every well-formed state
    of capacity at least 2 in which the buffer is full, it advances the
    read index by one slot and stores the event, and the events retained
    afterwards are the [capacity - 1] events retained before without the
    oldest of them, followed by the new event. *)
Theorem write_when_full_drops_oldest rb evt :
  wf rb -> 2 <= capacity rb -> is_full rb ->
  tail (RingBuffer_Write rb evt) = Z.land (tail rb + 1) (mask rb) /\
  Z.of_nat (length (retained rb)) = capacity rb - 1 /\
  retained (RingBuffer_Write rb evt) = drop 1 (retained rb) ++ [evt] /\
  Z.of_nat (length (retained (RingBuffer_Write rb evt))) = capacity rb - 1.
Proof.
  intros Hwf Htwo Hfull.
  pose proof (RingBuffer_Write_wf rb evt Hwf) as Hwf'.
  destruct (wf_buffer rb Hwf) as (slots & Hb & Hlen).
  pose proof Hwf as [(k & Hk & Hc) Hm Hh Ht _].
  unfold is_full in Hfull. rewrite Hm, (next_index _ k) in Hfull by assumption.
  destruct (distance_full (capacity rb) (head rb) (tail rb)) as [Hd1 Hd2];
    try lia.
  assert (Hlen0 : Z.of_nat (length (retained rb)) = capacity rb - 1).
  { rewrite retained_unread, unread_length by assumption.
    unfold pending. rewrite Hd1. lia. }
  assert (Hret : retained (RingBuffer_Write rb evt)
                 = drop 1 (retained rb) ++ [evt]).
  { rewrite !retained_unread by assumption.
    now apply unread_Write_full. }
  split; [|split; [exact Hlen0|split; [exact Hret|]]].
  - rewrite (RingBuffer_Write_wf_eq rb evt slots Hwf Hb). simpl.
    rewrite Hfull, Z.eqb_refl.
    rewrite Hm, Hc, land_mask by lia. reflexivity.
  - rewrite Hret, length_app, length_drop. simpl. lia.
Qed.

Lemma write_when_full_drops_oldest_witness :
  let rb := write_all (fresh_channel 4) (tagged_upto 3) in
  tail (RingBuffer_Write rb (tagged 4)) = Z.land (tail rb + 1) (mask rb) /\
  Z.of_nat (length (retained rb)) = capacity rb - 1 /\
  retained (RingBuffer_Write rb (tagged 4)) = drop 1 (retained rb) ++ [tagged 4] /\
  Z.of_nat (length (retained (RingBuffer_Write rb (tagged 4)))) = capacity rb - 1.
Proof.
  intros rb.
  apply (write_when_full_drops_oldest rb (tagged 4)).
  - apply write_all_wf.
    apply (RingBuffer_Init_success 31 always_grant RingBuffer_static 4
             (fresh_channel 4) [HeapAlloc 96 true]).
    reflexivity.
  - vm_compute. discriminate.
  - reflexivity.
Defined.

(** C4 at the failing input: with a request of [2^31 + 1] the rounding
    loop never stops, so RingBuffer_Init yields no capacity whatever the
    fuel and the heap. *)
Theorem C4_init_never_returns_above_2_31 fuel heap_alloc rb0 :
  RingBuffer_Init fuel heap_alloc rb0 (2 ^ 31 + 1) = None.
Proof.
  unfold RingBuffer_Init.
  rewrite (round_up_loop_spins fuel 1 (2 ^ 31 + 1)); [reflexivity|lia|].
  right. exists 0. split; [lia|reflexivity].
Qed.

(** C6: on an empty channel (read index equal to write index)
    RingBuffer_ReadBatch returns a count of zero, copies nothing and
    leaves the whole state, both indices included, unchanged. *)
Theorem C6_read_empty_changes_nothing rb maxEvents :
  tail rb = head rb ->
  RingBuffer_ReadBatch rb maxEvents = (0, [], rb).
Proof.
  intros Hempty. unfold RingBuffer_ReadBatch. rewrite !load_only.
  assert (read_loop rb (head rb) (Z.to_nat maxEvents) (tail rb) 0 []
          = (tail rb, 0, [])) as ->.
  { destruct (Z.to_nat maxEvents); simpl; [reflexivity|].
    rewrite Hempty, Z.eqb_refl. reflexivity. }
  simpl. destruct rb; reflexivity.
Qed.

Lemma C6_read_empty_changes_nothing_witness :
  RingBuffer_ReadBatch (fresh_channel 4) 16 = (0, [], fresh_channel 4).
Proof.
  apply (C6_read_empty_changes_nothing (fresh_channel 4) 16).
  reflexivity.
Defined.

(** C9: after a successful RingBuffer_Init and any sequence of
    RingBuffer_Write and RingBuffer_ReadBatch operations, the write index
    and the read index both lie in [[0, capacity)]. *)
Theorem C9_indices_stay_below_capacity fuel heap_alloc rb0 n rb calls ops :
  RingBuffer_Init fuel heap_alloc rb0 n = Some (TRUE, rb, calls) ->
  0 <= head (run rb ops) < capacity (run rb ops) /\
  0 <= tail (run rb ops) < capacity (run rb ops).
Proof.
  intros Hinit.
  apply RingBuffer_Init_success in Hinit as (Hwf & _).
  pose proof (run_wf rb ops Hwf) as [_ _ Hh Ht _].
  split; assumption.
Qed.

Lemma C9_indices_stay_below_capacity_witness :
  let ops := [OpWrite (tagged 1); OpWrite (tagged 2); OpReadBatch 1;
              OpWrite (tagged 3); OpWrite (tagged 4); OpWrite (tagged 5);
              OpReadBatch 8] in
  0 <= head (run (fresh_channel 4) ops) < capacity (run (fresh_channel 4) ops) /\
  0 <= tail (run (fresh_channel 4) ops) < capacity (run (fresh_channel 4) ops).
Proof.
  intros ops.
  apply (C9_indices_stay_below_capacity 31 always_grant RingBuffer_static 4
           (fresh_channel 4) [HeapAlloc 96 true] ops).
  reflexivity.
Defined.

(** C10: for every request n with 1 <= n <= 2^31 the rounding loop stops,
    within 31 doublings, at a 32-bit value that is at least n; for every
    32-bit request above 2^31 it never stops, whatever the fuel. *)
Theorem C10_rounding_loop_stops_iff_at_most_2_31 n :
  1 <= n < 2 ^ 32 ->
  (n <= 2 ^ 31 ->
   exists c, round_up_loop 31 1 n = Some c /\ n <= c < 2 ^ 32) /\
  (2 ^ 31 < n -> forall fuel, round_up_loop fuel 1 n = None).
Proof.
  intros Hn. split.
  - intros Hle.
    destruct (round_up_loop_stops 31 0 n) as [c Hc]; [lia|lia|simpl; lia|].
    change (2 ^ 0) with 1 in Hc. exists c. split; [exact Hc|].
    apply (round_up_loop_result 31 0) in Hc; [|lia|now left].
    destruct Hc as (j & Hj & -> & Hge & _).
    pose proof (pow2_le_31 j Hj).
    assert (2 ^ 31 < 2 ^ 32) by (vm_compute; reflexivity). lia.
  - intros Hgt fuel. apply round_up_loop_spins; [exact Hgt|].
    right. exists 0. split; [lia|reflexivity].
Qed.

Lemma C10_rounding_loop_stops_iff_at_most_2_31_witness :
  (exists c, round_up_loop 31 1 (2 ^ 31) = Some c /\ 2 ^ 31 <= c < 2 ^ 32) /\
  (forall fuel, round_up_loop fuel 1 (2 ^ 31 + 1) = None).
Proof.
  split.
  - apply (C10_rounding_loop_stops_iff_at_most_2_31 (2 ^ 31)); lia.
  - apply (C10_rounding_loop_stops_iff_at_most_2_31 (2 ^ 31 + 1)); lia.
Defined.

(** * The capture session *)

Lemma is_set_NULL : is_set NULL = false.
Proof. reflexivity. Qed.

(** A key press captured on an active session is what the next
    HookDll_ReadEvents hands to the consumer; on the static session the
    callback stores nothing and the read returns nothing. *)
Example capture_then_read :
  let pKb := {| kb_vkCode := 65; kb_scanCode := 30; kb_flags := 0;
                kb_time := 1000 |} in
  fst (HookDll_ReadEvents
         (fst (LowLevelKeyboardProc active_session 0 256 pKb)) true 8)
  = (1, [{| type := HOOK_EVENT_KEYBOARD; timestamp_ms := 1000;
            data := keyboard {| Keyboard.vkCode := 65; Keyboard.scanCode := 30;
                                Keyboard.flags := 0; Keyboard.action := 256 |} |}])
  /\ fst (HookDll_ReadEvents
            (fst (LowLevelKeyboardProc HookDll_static 0 256 pKb)) true 8)
     = (0, []).
Proof. split; reflexivity. Qed.

(** C5: when HookDll_Initialize runs in the Uninitialized state, the
    channel is allocated and one of the two registrations is refused,
    the call returns FALSE; every handle obtained has been unregistered,
    the buffer has been freed, both handles and the buffer pointer are
    null, and the session is still Uninitialized.  The calls made are:
    the allocation, the two registrations, one unregistration per handle
    obtained, and one release of the block. *)
Theorem C5_initialize_rolls_back_on_refusal fuel host st n :
  g_initialized st = FALSE ->
  n <= 2 ^ 31 -> (31 <= fuel)%nat ->
  (forall bytes, host_HeapAlloc host bytes = true) ->
  host_SetWindowsHookExW host WH_KEYBOARD_LL = NULL
  \/ host_SetWindowsHookExW host WH_MOUSE_LL = NULL ->
  let kb := host_SetWindowsHookExW host WH_KEYBOARD_LL in
  let ms := host_SetWindowsHookExW host WH_MOUSE_LL in
  exists st' calls bytes,
    HookDll_Initialize fuel host st n = Some (FALSE, st', calls) /\
    g_initialized st' = FALSE /\
    g_keyboardHook st' = NULL /\ g_mouseHook st' = NULL /\
    buffer (g_ringBuffer st') = None /\
    HookDll_IsHealthy st' = FALSE /\
    calls = [HeapAlloc bytes true;
             SetWindowsHookExW WH_KEYBOARD_LL kb;
             SetWindowsHookExW WH_MOUSE_LL ms]
            ++ (if is_set kb then [UnhookWindowsHookEx kb] else [])
            ++ (if is_set ms then [UnhookWindowsHookEx ms] else [])
            ++ [HeapFree] /\
    hooks_held calls [] = [] /\
    blocks_held calls = 0.
Proof.
  intros Hst Hn Hfuel Hheap Hrefused kb ms.
  destruct (RingBuffer_Init_returns fuel (host_HeapAlloc host)
              (g_ringBuffer st) n Hn Hfuel) as (b & rb & calls & Hinit).
  assert (b = TRUE) as ->.
  { unfold RingBuffer_Init in Hinit.
    destruct (round_up_loop fuel 1 n); [|discriminate].
    rewrite Hheap in Hinit. now injection Hinit as <- _ _. }
  pose proof (RingBuffer_Init_success _ _ _ _ _ _ Hinit)
    as (Hwf & _ & _ & _ & Hb & ->).
  unfold HookDll_Initialize. rewrite Hst, Hinit. simpl.
  unfold RingBuffer_Destroy. rewrite Hb.
  fold kb ms. fold kb ms in Hrefused.
  assert (Hany : negb (is_set kb) || negb (is_set ms) = true).
  { destruct Hrefused as [-> | ->]; rewrite is_set_NULL.
    - reflexivity.
    - apply orb_true_r. }
  rewrite Hany.
  eexists _, _, _. split; [reflexivity|]. simpl.
  repeat (split; [reflexivity|]).
  split; [now rewrite <- !app_assoc|].
  unfold blocks_held, count_calls.
  destruct (is_set kb) eqn:Hkb, (is_set ms) eqn:Hms; simpl in *;
    try discriminate;
    rewrite ?Hkb, ?Hms, ?Z.eqb_refl; repeat split; reflexivity.
Qed.

Lemma C5_initialize_rolls_back_on_refusal_witness :
  exists st' calls bytes,
    HookDll_Initialize 31 host_no_mouse HookDll_static 8
    = Some (FALSE, st', calls) /\
    g_initialized st' = FALSE /\
    g_keyboardHook st' = NULL /\ g_mouseHook st' = NULL /\
    buffer (g_ringBuffer st') = None /\
    HookDll_IsHealthy st' = FALSE /\
    calls = [HeapAlloc bytes true;
             SetWindowsHookExW WH_KEYBOARD_LL 4109;
             SetWindowsHookExW WH_MOUSE_LL NULL]
            ++ [UnhookWindowsHookEx 4109] ++ [] ++ [HeapFree] /\
    hooks_held calls [] = [] /\
    blocks_held calls = 0.
Proof.
  apply (C5_initialize_rolls_back_on_refusal 31 host_no_mouse HookDll_static 8).
  - reflexivity.
  - lia.
  - lia.
  - reflexivity.
  - right. reflexivity.
Defined.

Lemma HookDll_Initialize_success fuel host st n st1 calls :
  HookDll_Initialize fuel host st n = Some (TRUE, st1, calls) ->
  g_initialized st1 = TRUE.
Proof.
  unfold HookDll_Initialize.
  destruct (g_initialized st) eqn:Hst.
  - intros H. injection H as <- _. exact Hst.
  - destruct (RingBuffer_Init _ _ _ _) as [[[[] rb] c]|]; try discriminate.
    destruct (negb _ || negb _).
    + destruct (RingBuffer_Destroy rb). discriminate.
    + intros H. injection H as <- _. reflexivity.
Qed.

(** C7: HookDll_Initialize on an Active session returns TRUE, leaves
    the whole state unchanged and makes no call into the host; so a
    second call right after a successful one changes nothing, whatever
    capacity it asks for and whatever the host would answer. *)
Theorem C7_initialize_when_active_is_noop fuel host st n :
  (g_initialized st = TRUE ->
   HookDll_Initialize fuel host st n = Some (TRUE, st, [])) /\
  (forall st1 calls fuel' host' n',
     HookDll_Initialize fuel host st n = Some (TRUE, st1, calls) ->
     HookDll_Initialize fuel' host' st1 n' = Some (TRUE, st1, [])).
Proof.
  split.
  - intros Hst. unfold HookDll_Initialize. now rewrite Hst.
  - intros st1 calls fuel' host' n' Hfirst.
    apply HookDll_Initialize_success in Hfirst.
    unfold HookDll_Initialize. now rewrite Hfirst.
Qed.

Lemma C7_initialize_when_active_is_noop_witness :
  g_initialized active_session = TRUE /\
  HookDll_Initialize 0 host_no_mouse active_session 1024
  = Some (TRUE, active_session, []) /\
  HookDll_Initialize 31 host_ok active_session 8
  = Some (TRUE, active_session, []).
Proof.
  split; [reflexivity|]. split.
  - apply (C7_initialize_when_active_is_noop 0 host_no_mouse active_session 1024).
    reflexivity.
  - apply (C7_initialize_when_active_is_noop 31 host_ok HookDll_static 8)
      with (calls := [HeapAlloc 192 true;
                      SetWindowsHookExW WH_KEYBOARD_LL 4109;
                      SetWindowsHookExW WH_MOUSE_LL 4110]).
    reflexivity.
Defined.

(** C8: HookDll_Shutdown in the Uninitialized state changes nothing and
    calls nothing; after any HookDll_Shutdown a second one changes
    nothing and calls nothing, and the two calls together free the
    buffer at most once. *)
Theorem C8_shutdown_is_idempotent st :
  (g_initialized st = FALSE -> HookDll_Shutdown st = (st, [])) /\
  HookDll_Shutdown (fst (HookDll_Shutdown st))
  = (fst (HookDll_Shutdown st), []) /\
  (count_calls is_HeapFree
     (snd (HookDll_Shutdown st)
      ++ snd (HookDll_Shutdown (fst (HookDll_Shutdown st)))) <= 1)%nat.
Proof.
  assert (Hoff : forall s, g_initialized s = FALSE -> HookDll_Shutdown s = (s, [])).
  { intros s Hs. unfold HookDll_Shutdown. now rewrite Hs. }
  assert (Hafter : g_initialized (fst (HookDll_Shutdown st)) = FALSE).
  { unfold HookDll_Shutdown. destruct (g_initialized st) eqn:Hst; simpl.
    - destruct (RingBuffer_Destroy (g_ringBuffer st)). reflexivity.
    - exact Hst. }
  split; [apply Hoff|]. split.
  - apply Hoff, Hafter.
  - rewrite (Hoff _ Hafter). simpl. rewrite app_nil_r.
    unfold HookDll_Shutdown, RingBuffer_Destroy, count_calls.
    destruct (g_initialized st); simpl; [|lia].
    destruct (is_set (g_keyboardHook st)), (is_set (g_mouseHook st)),
      (buffer (g_ringBuffer st)); simpl; lia.
Qed.

Lemma C8_shutdown_is_idempotent_witness :
  HookDll_Shutdown HookDll_static = (HookDll_static, []) /\
  HookDll_Shutdown (fst (HookDll_Shutdown active_session))
  = (fst (HookDll_Shutdown active_session), []).
Proof.
  split.
  - apply (proj1 (C8_shutdown_is_idempotent HookDll_static)).
    reflexivity.
  - apply (proj1 (proj2 (C8_shutdown_is_idempotent active_session))).
Defined.

(** * Further properties of the channel *)

Lemma window_mod b c t n : 0 < c -> window b c (t mod c) n = window b c t n.
Proof.
  intros Hc. unfold window. apply map_ext. intros k.
  now rewrite Zplus_mod_idemp_l.
Qed.

Lemma window_drop b c t k n :
  0 < c ->
  window b c ((t + Z.of_nat k) mod c) n = drop k (window b c t (k + n)).
Proof.
  intros Hc. revert t. induction k as [|k IH]; intros t.
  - simpl. rewrite Z.add_0_r. now apply window_mod.
  - change (S k + n)%nat with (S (k + n)). rewrite window_cons by assumption.
    change (drop (S k) (?x :: ?l)) with (drop k l).
    rewrite <- IH, Zplus_mod_idemp_l.
    replace (t + 1 + Z.of_nat k) with (t + Z.of_nat (S k)) by lia.
    reflexivity.
Qed.

Lemma distance_advance c h t k :
  0 < c -> 0 <= h < c -> 0 <= t < c -> 0 <= k <= (h - t) mod c ->
  (h - (t + k) mod c) mod c = (h - t) mod c - k.
Proof. intros Hc Hh Ht Hk. mod_cases c. Qed.

Lemma drop_min {A} m (l : list A) :
  drop (Nat.min m (length l)) l = drop m l.
Proof.
  destruct (Nat.le_gt_cases m (length l)) as [Hle|Hgt].
  - now rewrite Nat.min_l.
  - rewrite Nat.min_r, drop_all, drop_ge by lia. reflexivity.
Qed.

(** A batch read removes from the front what it returns. *)
Lemma unread_ReadBatch rb maxEvents :
  wf rb -> 0 <= maxEvents < 2 ^ 32 ->
  unread (snd (RingBuffer_ReadBatch rb maxEvents))
  = drop (Z.to_nat maxEvents) (unread rb).
Proof.
  intros Hwf Hmax. rewrite RingBuffer_ReadBatch_wf_eq by assumption.
  destruct Hwf as [(k & Hk & Hc) Hm Hh Ht _].
  pose proof (pow2_le_31 k Hk) as Hpos. rewrite <- Hc in Hpos.
  pose proof (distance_lt (capacity rb) (head rb) (tail rb) ltac:(lia)) as Hd.
  simpl. rewrite <- (drop_min (Z.to_nat maxEvents) (unread rb)), unread_length.
  set (m := Nat.min (Z.to_nat maxEvents) (pending rb)).
  assert (Hm_le : (m <= pending rb)%nat) by (unfold m; lia).
  unfold unread at 1. unfold pending at 1. simpl.
  unfold pending in Hm_le.
  rewrite distance_advance by lia.
  rewrite window_drop by lia.
  unfold unread, pending. do 2 f_equal. lia.
Qed.

Lemma RingBuffer_ReadBatch_capacity rb maxEvents :
  capacity (snd (RingBuffer_ReadBatch rb maxEvents)) = capacity rb.
Proof.
  unfold RingBuffer_ReadBatch. rewrite !load_only.
  destruct (read_loop _ _ _ _ _ _) as [[t' count] out]. reflexivity.
Qed.

Lemma step_wf rb op : wf rb -> wf (step rb op).
Proof.
  intros Hwf. destruct op; simpl.
  - now apply RingBuffer_Write_wf.
  - now apply RingBuffer_ReadBatch_wf.
Qed.

Lemma step_capacity rb op : capacity (step rb op) = capacity rb.
Proof.
  destruct op.
  - reflexivity.
  - apply RingBuffer_ReadBatch_capacity.
Qed.

Lemma unread_step rb op :
  wf rb -> valid_op op ->
  unread (step rb op) = queue_step (capacity rb) (unread rb) op.
Proof.
  intros Hwf Hop. destruct op; simpl.
  - now apply unread_Write.
  - now apply unread_ReadBatch.
Qed.

Lemma unread_run rb ops :
  wf rb -> Forall valid_op ops ->
  unread (run rb ops) = queue_run (capacity rb) (unread rb) ops.
Proof.
  intros Hwf Hops. revert rb Hwf.
  induction Hops as [|op ops Hop Hops IH]; intros rb Hwf; simpl; [reflexivity|].
  rewrite IH by now apply step_wf.
  now rewrite step_capacity, unread_step.
Qed.

Lemma In_drop {A} n (l : list A) x : In x (drop n l) -> In x l.
Proof.
  intros H. rewrite <- (take_drop n l). apply in_or_app. now right.
Qed.

Lemma queue_run_origin c q ops x :
  In x (queue_run c q ops) -> In x q \/ In x (written ops).
Proof.
  revert q. induction ops as [|op ops IH]; intros q Hx; simpl in *; [now left|].
  apply IH in Hx. destruct Hx as [Hx|Hx].
  - destruct op as [evt|m]; simpl in Hx.
    + apply In_drop, in_app_or in Hx. destruct Hx as [Hx|[<-|[]]].
      * now left.
      * right. now left.
    + apply In_drop in Hx. now left.
  - right. destruct op; simpl; auto.
Qed.

(** X1: a write into a well-formed channel that is not full appends the
    event to the retained ones and leaves the read index alone. *)
Theorem X1_write_with_room_appends rb evt :
  wf rb -> ~ is_full rb ->
  retained (RingBuffer_Write rb evt) = retained rb ++ [evt] /\
  tail (RingBuffer_Write rb evt) = tail rb /\
  head (RingBuffer_Write rb evt) = Z.land (head rb + 1) (mask rb).
Proof.
  intros Hwf Hroom.
  pose proof (RingBuffer_Write_wf rb evt Hwf) as Hwf'.
  destruct (wf_buffer rb Hwf) as (slots & Hb & Hlen).
  pose proof Hwf as [(k & Hk & Hc) Hm Hh Ht _].
  unfold is_full in Hroom. rewrite Hm, (next_index _ k) in Hroom by assumption.
  split; [|split].
  - rewrite !retained_unread by assumption. now apply unread_Write_room.
  - rewrite (RingBuffer_Write_wf_eq rb evt slots Hwf Hb). simpl.
    destruct (Z.eqb_spec ((head rb + 1) mod capacity rb) (tail rb));
      [contradiction|reflexivity].
  - rewrite (RingBuffer_Write_wf_eq rb evt slots Hwf Hb). simpl.
    rewrite Hm, Hc, land_mask by lia. reflexivity.
Qed.

Lemma X1_write_with_room_appends_witness :
  let rb := write_all (fresh_channel 4) (tagged_upto 2) in
  retained (RingBuffer_Write rb (tagged 3)) = retained rb ++ [tagged 3] /\
  tail (RingBuffer_Write rb (tagged 3)) = tail rb /\
  head (RingBuffer_Write rb (tagged 3)) = Z.land (head rb + 1) (mask rb).
Proof.
  intros rb.
  apply (X1_write_with_room_appends rb (tagged 3)).
  - apply write_all_wf.
    apply (RingBuffer_Init_success 31 always_grant RingBuffer_static 4
             (fresh_channel 4) [HeapAlloc 96 true]).
    reflexivity.
  - vm_compute. discriminate.
Defined.

(** X2: after any sequence of writes into a well-formed channel, the
    retained events are the newest [capacity - 1] of the events retained
    before followed by the events written: overflow drops from the old
    end only, and never reorders. *)
Theorem X2_writes_keep_newest rb evts :
  wf rb ->
  retained (write_all rb evts)
  = keep_last (Z.to_nat (capacity rb - 1)) (retained rb ++ evts).
Proof.
  intros Hwf.
  rewrite !retained_unread by auto using write_all_wf.
  now apply unread_write_all.
Qed.

Lemma X2_writes_keep_newest_witness :
  retained (write_all (fresh_channel 4) (tagged_upto 9))
  = keep_last (Z.to_nat (capacity (fresh_channel 4) - 1))
      (retained (fresh_channel 4) ++ tagged_upto 9).
Proof.
  apply (X2_writes_keep_newest (fresh_channel 4) (tagged_upto 9)).
  apply (RingBuffer_Init_success 31 always_grant RingBuffer_static 4
           (fresh_channel 4) [HeapAlloc 96 true]).
  reflexivity.
Defined.

(** X3: a batch read of a well-formed channel returns the first
    [maxEvents] retained events (all of them if there are fewer), counts
    them, and leaves exactly the remaining ones retained; the write index
    and the slots are untouched. *)
Theorem X3_read_batch_splits_the_queue rb maxEvents :
  wf rb -> 0 <= maxEvents < 2 ^ 32 ->
  let r := RingBuffer_ReadBatch rb maxEvents in
  snd (fst r) = take (Z.to_nat maxEvents) (retained rb) /\
  fst (fst r) = Z.of_nat (length (snd (fst r))) /\
  retained (snd r) = drop (Z.to_nat maxEvents) (retained rb) /\
  snd (fst r) ++ retained (snd r) = retained rb /\
  head (snd r) = head rb /\ buffer (snd r) = buffer rb.
Proof.
  intros Hwf Hmax r.
  pose proof (RingBuffer_ReadBatch_wf rb maxEvents Hwf) as Hwf'.
  assert (Hret : retained (snd r) = drop (Z.to_nat maxEvents) (retained rb)).
  { unfold r. rewrite !retained_unread by assumption.
    now apply unread_ReadBatch. }
  assert (Hout : snd (fst r) = take (Z.to_nat maxEvents) (retained rb)).
  { unfold r. rewrite RingBuffer_ReadBatch_wf_eq, retained_unread by assumption.
    reflexivity. }
  split; [exact Hout|]. split; [|split; [exact Hret|split; [|split]]].
  - rewrite Hout. unfold r.
    rewrite RingBuffer_ReadBatch_wf_eq, retained_unread by assumption.
    simpl. now rewrite length_take, unread_length.
  - rewrite Hout, Hret. apply take_drop.
  - unfold r. now rewrite RingBuffer_ReadBatch_wf_eq.
  - unfold r. now rewrite RingBuffer_ReadBatch_wf_eq.
Qed.

Lemma X3_read_batch_splits_the_queue_witness :
  let rb := write_all (fresh_channel 8) (tagged_upto 5) in
  let r := RingBuffer_ReadBatch rb 2 in
  snd (fst r) = take (Z.to_nat 2) (retained rb) /\
  fst (fst r) = Z.of_nat (length (snd (fst r))) /\
  retained (snd r) = drop (Z.to_nat 2) (retained rb) /\
  snd (fst r) ++ retained (snd r) = retained rb /\
  head (snd r) = head rb /\ buffer (snd r) = buffer rb.
Proof.
  intros rb.
  apply (X3_read_batch_splits_the_queue rb 2).
  - apply write_all_wf.
    apply (RingBuffer_Init_success 31 always_grant RingBuffer_static 8
             (fresh_channel 8) [HeapAlloc 192 true]).
    reflexivity.
  - lia.
Defined.

(** X4: the channel implements a bounded queue.  Along any sequence of
    writes and batch reads on a well-formed channel, the retained events
    evolve as a list that a write extends at the back, cut to the newest
    [capacity - 1], and that a batch read shortens at the front; the
    capacity never changes. *)
Theorem X4_channel_refines_bounded_queue rb ops :
  wf rb -> Forall valid_op ops ->
  retained (run rb ops) = queue_run (capacity rb) (retained rb) ops /\
  capacity (run rb ops) = capacity rb.
Proof.
  intros Hwf Hops. split.
  - rewrite !retained_unread by auto using run_wf.
    now apply unread_run.
  - clear Hwf Hops. revert rb.
    induction ops as [|op ops IH]; intros rb; simpl; [reflexivity|].
    now rewrite IH, step_capacity.
Qed.

Lemma X4_channel_refines_bounded_queue_witness :
  let ops := [OpWrite (tagged 1); OpWrite (tagged 2); OpReadBatch 1;
              OpWrite (tagged 3); OpWrite (tagged 4); OpWrite (tagged 5);
              OpReadBatch 8; OpWrite (tagged 6)] in
  retained (run (fresh_channel 4) ops)
  = queue_run (capacity (fresh_channel 4)) (retained (fresh_channel 4)) ops /\
  capacity (run (fresh_channel 4) ops) = capacity (fresh_channel 4).
Proof.
  intros ops.
  apply (X4_channel_refines_bounded_queue (fresh_channel 4) ops).
  - apply (RingBuffer_Init_success 31 always_grant RingBuffer_static 4
             (fresh_channel 4) [HeapAlloc 96 true]).
    reflexivity.
  - repeat constructor; simpl; lia.
Defined.

(** X5: a read never returns a slot nobody wrote.  Every event retained
    after a sequence of operations was retained before it or was written
    during it; on a channel fresh from RingBuffer_Init, every event read
    is one of the events written (never a zero-filled or stale slot). *)
Theorem X5_retained_events_were_written fuel heap_alloc rb0 n rb calls ops evt :
  RingBuffer_Init fuel heap_alloc rb0 n = Some (TRUE, rb, calls) ->
  Forall valid_op ops ->
  In evt (retained (run rb ops)) -> In evt (written ops).
Proof.
  intros Hinit Hops Hin.
  apply RingBuffer_Init_success in Hinit as (Hwf & Hh & Ht & _).
  rewrite retained_unread, unread_run in Hin by auto using run_wf.
  apply queue_run_origin in Hin. destruct Hin as [Hin|Hin]; [|exact Hin].
  rewrite unread_fresh in Hin by assumption. destruct Hin.
Qed.

Lemma X5_retained_events_were_written_witness :
  let ops := [OpWrite (tagged 1); OpWrite (tagged 2); OpReadBatch 1] in
  In (tagged 2) (written ops).
Proof.
  intros ops.
  apply (X5_retained_events_were_written 31 always_grant RingBuffer_static 4
           (fresh_channel 4) [HeapAlloc 96 true] ops (tagged 2)).
  - reflexivity.
  - repeat constructor; simpl; lia.
  - vm_compute. left. reflexivity.
Defined.

(** X6: occupancy.  In a well-formed channel the number of retained
    events is [(head - tail) mod capacity]; it never exceeds
    [capacity - 1], whatever has been written. *)
Theorem X6_occupancy_below_capacity rb :
  wf rb ->
  Z.of_nat (length (retained rb)) = (head rb - tail rb) mod capacity rb /\
  Z.of_nat (length (retained rb)) <= capacity rb - 1.
Proof.
  intros Hwf. pose proof (pending_lt rb Hwf) as Hlt.
  destruct (wf_capacity rb Hwf) as (k & Hk & Hc).
  pose proof (pow2_le_31 k Hk) as Hpos. rewrite <- Hc in Hpos.
  pose proof (distance_lt (capacity rb) (head rb) (tail rb) ltac:(lia)).
  rewrite retained_unread, unread_length by assumption.
  unfold pending in *. lia.
Qed.

Lemma X6_occupancy_below_capacity_witness :
  let rb := write_all (fresh_channel 4) (tagged_upto 9) in
  Z.of_nat (length (retained rb)) = (head rb - tail rb) mod capacity rb /\
  Z.of_nat (length (retained rb)) <= capacity rb - 1.
Proof.
  intros rb.
  apply (X6_occupancy_below_capacity rb).
  apply write_all_wf.
  apply (RingBuffer_Init_success 31 always_grant RingBuffer_static 4
           (fresh_channel 4) [HeapAlloc 96 true]).
  reflexivity.
Defined.

(** X7: on a well-formed channel, RingBuffer_ReadBatch returns as count
    the number of events it copied, and copies at most [maxEvents] and at
    most [capacity - 1] events: it never writes past the end of the
    caller's array. *)
Theorem X7_read_batch_within_bounds rb maxEvents :
  wf rb -> 0 <= maxEvents < 2 ^ 32 ->
  let r := RingBuffer_ReadBatch rb maxEvents in
  fst (fst r) = Z.of_nat (length (snd (fst r))) /\
  0 <= fst (fst r) <= maxEvents /\
  fst (fst r) <= capacity rb - 1.
Proof.
  intros Hwf Hmax r. unfold r.
  pose proof (pending_lt rb Hwf) as Hp.
  rewrite RingBuffer_ReadBatch_wf_eq by assumption. simpl.
  rewrite length_take, unread_length. lia.
Qed.

Lemma X7_read_batch_within_bounds_witness :
  let rb := write_all (fresh_channel 4) (tagged_upto 3) in
  let r := RingBuffer_ReadBatch rb 2 in
  fst (fst r) = Z.of_nat (length (snd (fst r))) /\
  0 <= fst (fst r) <= 2 /\
  fst (fst r) <= capacity rb - 1.
Proof.
  intros rb.
  apply (X7_read_batch_within_bounds rb 2).
  - apply write_all_wf.
    apply (RingBuffer_Init_success 31 always_grant RingBuffer_static 4
             (fresh_channel 4) [HeapAlloc 96 true]).
    reflexivity.
  - lia.
Defined.

(** X8: for a request of at least 1, a successful RingBuffer_Init gives
    a capacity between the request and less than twice the request, asks
    the heap for exactly [capacity * sizeof(HookEvent)] bytes, and leaves
    [capacity] zero-filled slots and an empty channel. *)
Theorem X8_init_capacity_within_factor_two fuel heap_alloc rb0 n rb calls :
  1 <= n ->
  RingBuffer_Init fuel heap_alloc rb0 n = Some (TRUE, rb, calls) ->
  n <= capacity rb < 2 * n /\
  calls = [HeapAlloc (capacity rb * 24) true] /\
  buffer rb = Some (replicate (Z.to_nat (capacity rb)) zero_event) /\
  retained rb = [].
Proof.
  intros Hn Hinit.
  pose proof (RingBuffer_Init_success _ _ _ _ _ _ Hinit)
    as (Hwf & Hh & Ht & _ & Hb & Hcalls).
  split; [|split; [exact Hcalls|split; [exact Hb|]]].
  - unfold RingBuffer_Init in Hinit.
    destruct (round_up_loop fuel 1 n) as [c|] eqn:Hloop; [|discriminate].
    destruct (heap_alloc (c * sizeof_HookEvent)); [|discriminate].
    injection Hinit as <- _. simpl.
    apply (round_up_loop_result fuel 0) in Hloop; [|lia|now left].
    destruct Hloop as (j & Hj & -> & Hge & [-> | Hlow]).
    + simpl in *. lia.
    + split; [exact Hge|].
      destruct (Z.eq_dec j 0) as [-> | Hj0]; [simpl in *; lia|].
      replace j with (j - 1 + 1) at 1 by lia.
      rewrite Z.pow_add_r by lia. lia.
  - rewrite retained_unread by assumption. now apply unread_fresh.
Qed.

Lemma X8_init_capacity_within_factor_two_witness :
  10 <= capacity (fresh_channel 10) < 2 * 10 /\
  [HeapAlloc 384 true] = [HeapAlloc (capacity (fresh_channel 10) * 24) true] /\
  buffer (fresh_channel 10)
  = Some (replicate (Z.to_nat (capacity (fresh_channel 10))) zero_event) /\
  retained (fresh_channel 10) = [].
Proof.
  apply (X8_init_capacity_within_factor_two 31 always_grant RingBuffer_static 10
           (fresh_channel 10) [HeapAlloc 384 true]).
  - lia.
  - reflexivity.
Defined.

(** X9: when the heap refuses the block, RingBuffer_Init (for a request
    of at most 2^31) returns FALSE after the one refused HeapAlloc, with
    a null buffer pointer and every other field as it was. *)
Theorem X9_init_reports_refused_allocation fuel heap_alloc rb0 n :
  n <= 2 ^ 31 -> (31 <= fuel)%nat ->
  (forall bytes, heap_alloc bytes = false) ->
  exists bytes,
    RingBuffer_Init fuel heap_alloc rb0 n
    = Some (FALSE,
            {| buffer := None; capacity := capacity rb0; mask := mask rb0;
               head := head rb0; tail := tail rb0 |},
            [HeapAlloc bytes false]).
Proof.
  intros Hn Hfuel Hheap. unfold RingBuffer_Init.
  destruct (round_up_loop_stops fuel 0 n) as [c Hc]; [lia|lia|simpl; lia|].
  change (2 ^ 0) with 1 in Hc. rewrite Hc. simpl. rewrite Hheap.
  eexists. reflexivity.
Qed.

Lemma X9_init_reports_refused_allocation_witness :
  exists bytes,
    RingBuffer_Init 31 never_grant RingBuffer_static 10
    = Some (FALSE,
            {| buffer := None; capacity := capacity RingBuffer_static;
               mask := mask RingBuffer_static;
               head := head RingBuffer_static;
               tail := tail RingBuffer_static |},
            [HeapAlloc bytes false]).
Proof.
  apply (X9_init_reports_refused_allocation 31 never_grant RingBuffer_static 10).
  - lia.
  - lia.
  - reflexivity.
Defined.

(** X10: a request of 0 or 1 yields a channel of capacity 1, and such a
    channel never delivers anything: whatever is written and whenever it
    is read, every batch read returns count 0 and no event. *)
Theorem X10_capacity_one_delivers_nothing
    fuel heap_alloc rb0 n rb calls ops maxEvents :
  n <= 1 ->
  RingBuffer_Init fuel heap_alloc rb0 n = Some (TRUE, rb, calls) ->
  0 <= maxEvents < 2 ^ 32 ->
  capacity rb = 1 /\
  fst (RingBuffer_ReadBatch (run rb ops) maxEvents) = (0, []).
Proof.
  intros Hn Hinit Hmax.
  apply RingBuffer_Init_success in Hinit as (Hwf & _ & _ & Hsmall & _).
  assert (Hcap : capacity rb = 1).
  { destruct Hsmall as ((j & Hj & Hc) & Hge & Hmin).
    specialize (Hmin 0 ltac:(lia)). simpl in Hmin.
    pose proof (pow2_pos j Hj). lia. }
  split; [exact Hcap|].
  pose proof (run_wf rb ops Hwf) as Hwf'.
  pose proof (pending_lt _ Hwf') as Hp.
  assert (Hcap' : capacity (run rb ops) = 1).
  { rewrite <- Hcap. clear. revert rb.
    induction ops as [|op ops IH]; intros rb; simpl; [reflexivity|].
    now rewrite IH, step_capacity. }
  rewrite RingBuffer_ReadBatch_wf_eq by assumption. simpl.
  assert (pending (run rb ops) = 0%nat) as Hzero by lia.
  unfold unread. rewrite Hzero, Nat.min_0_r.
  change (window _ _ _ 0) with (@nil HookEvent).
  now rewrite take_nil.
Qed.

Lemma X10_capacity_one_delivers_nothing_witness :
  capacity (fresh_channel 0) = 1 /\
  fst (RingBuffer_ReadBatch
         (run (fresh_channel 0) [OpWrite (tagged 1); OpWrite (tagged 2)]) 8)
  = (0, []).
Proof.
  apply (X10_capacity_one_delivers_nothing 31 always_grant RingBuffer_static 0
           (fresh_channel 0) [HeapAlloc 24 true]
           [OpWrite (tagged 1); OpWrite (tagged 2)] 8).
  - lia.
  - reflexivity.
  - lia.
Defined.

(** * Further properties of the capture session *)

(** The three ways HookDll_Initialize returns from the Uninitialized
    state: refused allocation, refused registration, success. *)
Lemma HookDll_Initialize_cases fuel host st n b st' calls :
  g_initialized st = FALSE ->
  HookDll_Initialize fuel host st n = Some (b, st', calls) ->
  let kb := host_SetWindowsHookExW host WH_KEYBOARD_LL in
  let ms := host_SetWindowsHookExW host WH_MOUSE_LL in
  exists rb bytes,
    (RingBuffer_Init fuel (host_HeapAlloc host) (g_ringBuffer st) n
     = Some (FALSE, rb, [HeapAlloc bytes false]) /\
     buffer rb = None /\ b = FALSE /\
     st' = {| g_hModule := g_hModule st;
              g_keyboardHook := g_keyboardHook st;
              g_mouseHook := g_mouseHook st;
              g_ringBuffer := rb;
              g_initialized := FALSE |} /\
     calls = [HeapAlloc bytes false])
    \/
    (RingBuffer_Init fuel (host_HeapAlloc host) (g_ringBuffer st) n
     = Some (TRUE, rb, [HeapAlloc bytes true]) /\
     negb (is_set kb) || negb (is_set ms) = true /\ b = FALSE /\
     st' = {| g_hModule := g_hModule st;
              g_keyboardHook := NULL;
              g_mouseHook := NULL;
              g_ringBuffer :=
                {| buffer := None; capacity := capacity rb; mask := mask rb;
                   head := head rb; tail := tail rb |};
              g_initialized := FALSE |} /\
     calls = [HeapAlloc bytes true;
              SetWindowsHookExW WH_KEYBOARD_LL kb;
              SetWindowsHookExW WH_MOUSE_LL ms]
             ++ (if is_set kb then [UnhookWindowsHookEx kb] else [])
             ++ (if is_set ms then [UnhookWindowsHookEx ms] else [])
             ++ [HeapFree])
    \/
    (RingBuffer_Init fuel (host_HeapAlloc host) (g_ringBuffer st) n
     = Some (TRUE, rb, [HeapAlloc bytes true]) /\
     is_set kb = true /\ is_set ms = true /\ b = TRUE /\
     st' = {| g_hModule := g_hModule st;
              g_keyboardHook := kb;
              g_mouseHook := ms;
              g_ringBuffer := rb;
              g_initialized := TRUE |} /\
     calls = [HeapAlloc bytes true;
              SetWindowsHookExW WH_KEYBOARD_LL kb;
              SetWindowsHookExW WH_MOUSE_LL ms]).
Proof.
  intros Hst Hrun kb ms. unfold HookDll_Initialize in Hrun.
  rewrite Hst in Hrun.
  destruct (RingBuffer_Init fuel (host_HeapAlloc host) (g_ringBuffer st) n)
    as [[[ok rb] calls0]|] eqn:Hinit; [|discriminate].
  destruct ok.
  - pose proof (RingBuffer_Init_success _ _ _ _ _ _ Hinit)
      as (_ & _ & _ & _ & Hb & ->).
    exists rb, (capacity rb * sizeof_HookEvent).
    fold kb ms in Hrun.
    destruct (negb (is_set kb) || negb (is_set ms)) eqn:Hany.
    + right. left. unfold RingBuffer_Destroy in Hrun. rewrite Hb in Hrun.
      injection Hrun as <- <- <-.
      repeat split; try reflexivity. simpl. now rewrite <- !app_assoc.
    + right. right. apply orb_false_elim in Hany as [Hk Hm].
      apply negb_false_iff in Hk, Hm.
      injection Hrun as <- <- <-. repeat split; auto.
  - unfold RingBuffer_Init in Hinit.
    destruct (round_up_loop fuel 1 n) as [c|]; [|discriminate].
    destruct (host_HeapAlloc host (c * sizeof_HookEvent)) eqn:Hheap;
      [discriminate|].
    injection Hinit as <- <-. injection Hrun as <- <- <-.
    eexists _, _. left. repeat split; reflexivity.
Qed.

Lemma hooks_held_pair kb ms :
  hooks_held [UnhookWindowsHookEx kb; UnhookWindowsHookEx ms] [ms; kb] = [].
Proof.
  simpl. destruct (Z.eqb_spec ms kb) as [-> | Hne]; simpl.
  - now rewrite Z.eqb_refl.
  - now rewrite !Z.eqb_refl.
Qed.

(** X11: the success path.  From the Uninitialized state, with a request
    of at most 2^31, a heap that grants the block and a host that grants
    both hooks, HookDll_Initialize returns TRUE after exactly one
    allocation and the two registrations; the session is Active and
    healthy, holds the two handles, and its channel is empty with the
    rounded capacity. *)
Theorem X11_initialize_success_path fuel host st n :
  g_initialized st = FALSE ->
  n <= 2 ^ 31 -> (31 <= fuel)%nat ->
  (forall bytes, host_HeapAlloc host bytes = true) ->
  host_SetWindowsHookExW host WH_KEYBOARD_LL <> NULL ->
  host_SetWindowsHookExW host WH_MOUSE_LL <> NULL ->
  exists st' c,
    HookDll_Initialize fuel host st n
    = Some (TRUE, st',
            [HeapAlloc (c * 24) true;
             SetWindowsHookExW WH_KEYBOARD_LL
               (host_SetWindowsHookExW host WH_KEYBOARD_LL);
             SetWindowsHookExW WH_MOUSE_LL
               (host_SetWindowsHookExW host WH_MOUSE_LL)]) /\
    g_initialized st' = TRUE /\ HookDll_IsHealthy st' = TRUE /\
    g_keyboardHook st' = host_SetWindowsHookExW host WH_KEYBOARD_LL /\
    g_mouseHook st' = host_SetWindowsHookExW host WH_MOUSE_LL /\
    g_hModule st' = g_hModule st /\
    capacity (g_ringBuffer st') = c /\
    smallest_pow2_ge c (Z.max 1 n) /\
    retained (g_ringBuffer st') = [].
Proof.
  intros Hst Hn Hfuel Hheap Hkb Hms.
  destruct (RingBuffer_Init_returns fuel (host_HeapAlloc host)
              (g_ringBuffer st) n Hn Hfuel) as (b & rb & calls & Hinit).
  assert (b = TRUE) as ->.
  { unfold RingBuffer_Init in Hinit.
    destruct (round_up_loop fuel 1 n); [|discriminate].
    rewrite Hheap in Hinit. now injection Hinit as <- _ _. }
  pose proof (RingBuffer_Init_success _ _ _ _ _ _ Hinit)
    as (Hwf & Hh & Ht & Hsmall & Hb & ->).
  assert (Hk : is_set (host_SetWindowsHookExW host WH_KEYBOARD_LL) = true).
  { unfold is_set. now apply negb_true_iff, Z.eqb_neq. }
  assert (Hm : is_set (host_SetWindowsHookExW host WH_MOUSE_LL) = true).
  { unfold is_set. now apply negb_true_iff, Z.eqb_neq. }
  unfold HookDll_Initialize. rewrite Hst, Hinit. simpl. rewrite Hk, Hm. simpl.
  eexists _, (capacity rb). split; [reflexivity|]. simpl.
  unfold HookDll_IsHealthy. simpl. rewrite Hk, Hm.
  repeat split; try assumption; try reflexivity; try apply Hsmall.
  rewrite retained_unread by assumption. now apply unread_fresh.
Qed.

Lemma X11_initialize_success_path_witness :
  exists st' c,
    HookDll_Initialize 31 host_ok HookDll_static 8
    = Some (TRUE, st',
            [HeapAlloc (c * 24) true;
             SetWindowsHookExW WH_KEYBOARD_LL
               (host_SetWindowsHookExW host_ok WH_KEYBOARD_LL);
             SetWindowsHookExW WH_MOUSE_LL
               (host_SetWindowsHookExW host_ok WH_MOUSE_LL)]) /\
    g_initialized st' = TRUE /\ HookDll_IsHealthy st' = TRUE /\
    g_keyboardHook st' = host_SetWindowsHookExW host_ok WH_KEYBOARD_LL /\
    g_mouseHook st' = host_SetWindowsHookExW host_ok WH_MOUSE_LL /\
    g_hModule st' = g_hModule HookDll_static /\
    capacity (g_ringBuffer st') = c /\
    smallest_pow2_ge c (Z.max 1 8) /\
    retained (g_ringBuffer st') = [].
Proof.
  apply (X11_initialize_success_path 31 host_ok HookDll_static 8).
  - reflexivity.
  - lia.
  - lia.
  - reflexivity.
  - vm_compute. discriminate.
  - vm_compute. discriminate.
Defined.

(** X12: when the heap refuses the block, HookDll_Initialize returns
    FALSE without attempting any registration: its only call is the
    refused HeapAlloc, and the session stays Uninitialized with the
    handles it had and a null buffer pointer. *)
Theorem X12_initialize_stops_at_refused_allocation fuel host st n :
  g_initialized st = FALSE ->
  n <= 2 ^ 31 -> (31 <= fuel)%nat ->
  (forall bytes, host_HeapAlloc host bytes = false) ->
  exists st' bytes,
    HookDll_Initialize fuel host st n
    = Some (FALSE, st', [HeapAlloc bytes false]) /\
    g_initialized st' = FALSE /\ HookDll_IsHealthy st' = FALSE /\
    g_keyboardHook st' = g_keyboardHook st /\
    g_mouseHook st' = g_mouseHook st /\
    buffer (g_ringBuffer st') = None.
Proof.
  intros Hst Hn Hfuel Hheap.
  unfold HookDll_Initialize. rewrite Hst.
  unfold RingBuffer_Init.
  destruct (round_up_loop_stops fuel 0 n) as [c Hc]; [lia|lia|simpl; lia|].
  change (2 ^ 0) with 1 in Hc. rewrite Hc. simpl. rewrite Hheap.
  eexists _, _. split; [reflexivity|].
  unfold HookDll_IsHealthy. simpl. repeat split; reflexivity.
Qed.

Lemma X12_initialize_stops_at_refused_allocation_witness :
  exists st' bytes,
    HookDll_Initialize 31 host_no_memory HookDll_static 8
    = Some (FALSE, st', [HeapAlloc bytes false]) /\
    g_initialized st' = FALSE /\ HookDll_IsHealthy st' = FALSE /\
    g_keyboardHook st' = g_keyboardHook HookDll_static /\
    g_mouseHook st' = g_mouseHook HookDll_static /\
    buffer (g_ringBuffer st') = None.
Proof.
  apply (X12_initialize_stops_at_refused_allocation 31 host_no_memory
           HookDll_static 8).
  - reflexivity.
  - lia.
  - lia.
  - reflexivity.
Defined.

(** X13: on an Uninitialized session HookDll_Initialize does not return
    for any capacity above 2^31, whatever the host answers and however
    long it runs: the call never reaches the allocation. *)
Theorem X13_initialize_spins_above_2_31 fuel host st n :
  g_initialized st = FALSE -> 2 ^ 31 < n ->
  HookDll_Initialize fuel host st n = None.
Proof.
  intros Hst Hn. unfold HookDll_Initialize, RingBuffer_Init. rewrite Hst.
  rewrite (round_up_loop_spins fuel 1 n); [reflexivity|exact Hn|].
  right. exists 0. split; [lia|reflexivity].
Qed.

Lemma X13_initialize_spins_above_2_31_witness :
  HookDll_Initialize 1000 host_ok HookDll_static 4294967295 = None.
Proof.
  apply (X13_initialize_spins_above_2_31 1000 host_ok HookDll_static 4294967295).
  - reflexivity.
  - vm_compute. reflexivity.
Defined.

(** X14: whenever HookDll_Initialize returns, its result tells the state:
    it is TRUE exactly when the session is Active afterwards; and a
    FALSE result leaves nothing behind: every hook registered during the
    call was unregistered and every block granted was freed. *)
Theorem X14_initialize_result_matches_state fuel host st n b st' calls :
  HookDll_Initialize fuel host st n = Some (b, st', calls) ->
  b = g_initialized st' /\
  g_hModule st' = g_hModule st /\
  (b = FALSE -> hooks_held calls [] = [] /\ blocks_held calls = 0).
Proof.
  intros Hrun. destruct (g_initialized st) eqn:Hst.
  - unfold HookDll_Initialize in Hrun. rewrite Hst in Hrun.
    injection Hrun as <- <- <-. rewrite Hst. repeat split; discriminate.
  - pose proof (HookDll_Initialize_cases _ _ _ _ _ _ _ Hst Hrun)
      as (rb & bytes & [H|[H|H]]).
    + destruct H as (_ & _ & -> & -> & ->). repeat split; reflexivity.
    + destruct H as (_ & Hany & -> & -> & ->).
      split; [reflexivity|]. split; [reflexivity|]. intros _. clear Hrun.
      unfold blocks_held, count_calls.
      destruct (is_set (host_SetWindowsHookExW host WH_KEYBOARD_LL)) eqn:Hk,
               (is_set (host_SetWindowsHookExW host WH_MOUSE_LL)) eqn:Hm;
        simpl in *; try discriminate;
        rewrite ?Hk, ?Hm; simpl; rewrite ?Z.eqb_refl; split; reflexivity.
    + destruct H as (_ & _ & _ & -> & -> & ->).
      repeat split; discriminate.
Qed.

Lemma X14_initialize_result_matches_state_witness :
  let r := HookDll_Initialize 31 host_no_mouse HookDll_static 8 in
  exists b st' calls,
    r = Some (b, st', calls) /\
    b = g_initialized st' /\
    g_hModule st' = g_hModule HookDll_static /\
    (b = FALSE -> hooks_held calls [] = [] /\ blocks_held calls = 0).
Proof.
  intros r. unfold r.
  destruct (HookDll_Initialize 31 host_no_mouse HookDll_static 8)
    as [[[b st'] calls]|] eqn:Hrun.
  - exists b, st', calls. split; [reflexivity|].
    apply (X14_initialize_result_matches_state 31 host_no_mouse HookDll_static 8).
    exact Hrun.
  - vm_compute in Hrun. discriminate.
Defined.

(** What HookDll_Shutdown does to a session that HookDll_Initialize has
    just made Active, and the balance of the two calls. *)
Lemma shutdown_after_initialize fuel host st n st1 calls1 :
  g_initialized st = FALSE ->
  HookDll_Initialize fuel host st n = Some (TRUE, st1, calls1) ->
  let kb := host_SetWindowsHookExW host WH_KEYBOARD_LL in
  let ms := host_SetWindowsHookExW host WH_MOUSE_LL in
  let st2 := fst (HookDll_Shutdown st1) in
  snd (HookDll_Shutdown st1)
  = [UnhookWindowsHookEx kb; UnhookWindowsHookEx ms; HeapFree] /\
  g_initialized st2 = FALSE /\
  g_keyboardHook st2 = NULL /\ g_mouseHook st2 = NULL /\
  buffer (g_ringBuffer st2) = None /\
  hooks_held (calls1 ++ snd (HookDll_Shutdown st1)) [] = [] /\
  blocks_held (calls1 ++ snd (HookDll_Shutdown st1)) = 0.
Proof.
  intros Hst Hrun kb ms.
  pose proof (HookDll_Initialize_cases _ _ _ _ _ _ _ Hst Hrun)
    as (rb & bytes & [H|[H|H]]).
  - destruct H as (_ & _ & Hb & _). discriminate.
  - destruct H as (_ & _ & Hb & _). discriminate.
  - destruct H as (Hinit & Hk & Hm & _ & -> & ->).
    subst kb ms. cbv zeta in *.
    pose proof (RingBuffer_Init_success _ _ _ _ _ _ Hinit)
      as (_ & _ & _ & _ & Hb & _).
    unfold HookDll_Shutdown, RingBuffer_Destroy. simpl.
    rewrite Hk, Hm, Hb. simpl. rewrite ?Hk, ?Hm.
    repeat (split; [reflexivity|]).
    split; [apply hooks_held_pair|reflexivity].
Qed.

(** X15: initialise, then shut down.  After a successful
    HookDll_Initialize, HookDll_Shutdown unregisters the keyboard hook,
    then the mouse hook, then frees the buffer; the session is
    Uninitialized with null handles and a null buffer pointer, and over
    the two calls no hook and no heap block is left outstanding. *)
Theorem X15_initialize_then_shutdown_releases_all fuel host st n st1 calls1 :
  g_initialized st = FALSE ->
  HookDll_Initialize fuel host st n = Some (TRUE, st1, calls1) ->
  let st2 := fst (HookDll_Shutdown st1) in
  let calls2 := snd (HookDll_Shutdown st1) in
  calls2 = [UnhookWindowsHookEx (host_SetWindowsHookExW host WH_KEYBOARD_LL);
            UnhookWindowsHookEx (host_SetWindowsHookExW host WH_MOUSE_LL);
            HeapFree] /\
  g_initialized st2 = FALSE /\ HookDll_IsHealthy st2 = FALSE /\
  g_keyboardHook st2 = NULL /\ g_mouseHook st2 = NULL /\
  buffer (g_ringBuffer st2) = None /\
  hooks_held (calls1 ++ calls2) [] = [] /\
  blocks_held (calls1 ++ calls2) = 0.
Proof.
  intros Hst Hrun st2 calls2.
  pose proof (shutdown_after_initialize _ _ _ _ _ _ Hst Hrun)
    as (Hc & Hi & Hk & Hm & Hb & Hh & Hbl).
  fold st2 in Hi, Hk, Hm, Hb. fold calls2 in Hc, Hh, Hbl.
  repeat (split; [assumption|]).
  split; [|repeat (split; [assumption|]); assumption].
  unfold HookDll_IsHealthy. now rewrite Hi.
Qed.

Lemma X15_initialize_then_shutdown_releases_all_witness :
  let st2 := fst (HookDll_Shutdown active_session) in
  let calls1 := [HeapAlloc 192 true;
                 SetWindowsHookExW WH_KEYBOARD_LL 4109;
                 SetWindowsHookExW WH_MOUSE_LL 4110] in
  let calls2 := snd (HookDll_Shutdown active_session) in
  calls2 = [UnhookWindowsHookEx (host_SetWindowsHookExW host_ok WH_KEYBOARD_LL);
            UnhookWindowsHookEx (host_SetWindowsHookExW host_ok WH_MOUSE_LL);
            HeapFree] /\
  g_initialized st2 = FALSE /\ HookDll_IsHealthy st2 = FALSE /\
  g_keyboardHook st2 = NULL /\ g_mouseHook st2 = NULL /\
  buffer (g_ringBuffer st2) = None /\
  hooks_held (calls1 ++ calls2) [] = [] /\
  blocks_held (calls1 ++ calls2) = 0.
Proof.
  apply (X15_initialize_then_shutdown_releases_all 31 host_ok HookDll_static 8
           active_session).
  - reflexivity.
  - reflexivity.
Defined.

Lemma deliver_inactive st i : g_initialized st = FALSE -> deliver st i = st.
Proof.
  intros Hst. destruct i; simpl;
    unfold LowLevelKeyboardProc, LowLevelMouseProc;
    rewrite Hst, andb_false_r; reflexivity.
Qed.

Lemma deliver_all_inactive st inputs :
  g_initialized st = FALSE -> deliver_all st inputs = st.
Proof.
  intros Hst. induction inputs as [|i inputs IH]; simpl; [reflexivity|].
  now rewrite deliver_inactive.
Qed.

(** X16: after HookDll_Shutdown the session is inert, whatever state it
    was in: the health check is FALSE, every callback invocation leaves
    the state untouched, and HookDll_ReadEvents returns nothing, so
    events still unread at shutdown are never delivered. *)
Theorem X16_session_inert_after_shutdown st inputs outEvents_given maxEvents :
  let st2 := fst (HookDll_Shutdown st) in
  g_initialized st2 = FALSE /\
  HookDll_IsHealthy st2 = FALSE /\
  deliver_all st2 inputs = st2 /\
  HookDll_ReadEvents st2 outEvents_given maxEvents = (0, [], st2).
Proof.
  intros st2.
  assert (Hoff : g_initialized st2 = FALSE).
  { unfold st2, HookDll_Shutdown. destruct (g_initialized st) eqn:Hst; simpl.
    - destruct (RingBuffer_Destroy (g_ringBuffer st)). reflexivity.
    - exact Hst. }
  split; [exact Hoff|]. split; [|split].
  - unfold HookDll_IsHealthy. now rewrite Hoff.
  - now apply deliver_all_inactive.
  - unfold HookDll_ReadEvents. now rewrite Hoff.
Qed.

Lemma write_all_app rb evts1 evts2 :
  write_all rb (evts1 ++ evts2) = write_all (write_all rb evts1) evts2.
Proof. unfold write_all. apply fold_left_app. Qed.

Lemma deliver_active st i :
  g_initialized st = TRUE ->
  deliver st i
  = {| g_hModule := g_hModule st;
       g_keyboardHook := g_keyboardHook st;
       g_mouseHook := g_mouseHook st;
       g_ringBuffer := write_all (g_ringBuffer st) (captured i);
       g_initialized := TRUE |}.
Proof.
  intros Hst. destruct st as [hm kb ms rb ini]. simpl in Hst. subst ini.
  destruct i as [nCode wParam pKb|nCode wParam pMs]; simpl;
    unfold LowLevelKeyboardProc, LowLevelMouseProc; simpl;
    rewrite andb_true_r; destruct (0 <=? nCode); reflexivity.
Qed.

Lemma deliver_all_active st inputs :
  g_initialized st = TRUE ->
  deliver_all st inputs
  = {| g_hModule := g_hModule st;
       g_keyboardHook := g_keyboardHook st;
       g_mouseHook := g_mouseHook st;
       g_ringBuffer := write_all (g_ringBuffer st) (flat_map captured inputs);
       g_initialized := TRUE |}.
Proof.
  revert st. induction inputs as [|i inputs IH]; intros st Hst; simpl.
  - destruct st. simpl in Hst. now subst.
  - rewrite deliver_active by assumption.
    rewrite IH by reflexivity. simpl.
    now rewrite write_all_app.
Qed.

(** X17: the capture path.  On an Active session with a well-formed
    channel, a run of callback invocations stores, in order, one event
    per invocation with [nCode >= 0] (a keyboard or mouse event carrying
    the fields of the host's record and the message as action) and
    nothing for the others; the channel then retains the newest
    [capacity - 1] events.  Handles and the Active flag are untouched. *)
Theorem X17_callbacks_store_events_in_order st inputs :
  g_initialized st = TRUE -> wf (g_ringBuffer st) ->
  let st' := deliver_all st inputs in
  retained (g_ringBuffer st')
  = keep_last (Z.to_nat (capacity (g_ringBuffer st) - 1))
      (retained (g_ringBuffer st) ++ flat_map captured inputs) /\
  wf (g_ringBuffer st') /\
  g_initialized st' = TRUE /\
  g_keyboardHook st' = g_keyboardHook st /\
  g_mouseHook st' = g_mouseHook st.
Proof.
  intros Hst Hwf st'. unfold st'.
  rewrite deliver_all_active by assumption. simpl.
  split; [|split; [now apply write_all_wf|repeat split; reflexivity]].
  rewrite !retained_unread by auto using write_all_wf.
  now apply unread_write_all.
Qed.

Lemma X17_callbacks_store_events_in_order_witness :
  let pKb := {| kb_vkCode := 65; kb_scanCode := 30; kb_flags := 0;
                kb_time := 1000 |} in
  let pMs := {| ms_pt_x := 10; ms_pt_y := -4; ms_mouseData := 0;
                ms_time := 1001 |} in
  let inputs := [RawKeyboard 0 256 pKb; RawMouse (-1) 512 pMs;
                 RawMouse 0 513 pMs] in
  let st' := deliver_all active_session inputs in
  retained (g_ringBuffer st')
  = keep_last (Z.to_nat (capacity (g_ringBuffer active_session) - 1))
      (retained (g_ringBuffer active_session) ++ flat_map captured inputs) /\
  wf (g_ringBuffer st') /\
  g_initialized st' = TRUE /\
  g_keyboardHook st' = g_keyboardHook active_session /\
  g_mouseHook st' = g_mouseHook active_session.
Proof.
  intros pKb pMs inputs.
  apply (X17_callbacks_store_events_in_order active_session inputs).
  - reflexivity.
  - apply (RingBuffer_Init_success 31 always_grant RingBuffer_static 8
             (g_ringBuffer active_session) [HeapAlloc 192 true]).
    reflexivity.
Defined.

Lemma read_back_all rb evts :
  wf rb -> unread rb = [] -> Z.of_nat (length evts) < capacity rb ->
  fst (RingBuffer_ReadBatch (write_all rb evts) (Z.of_nat (length evts)))
  = (Z.of_nat (length evts), evts).
Proof.
  intros Hwf Hempty Hlen.
  destruct (wf_capacity rb Hwf) as (k & Hk & Hc).
  pose proof (pow2_le_31 k Hk) as Hpos. rewrite <- Hc in Hpos.
  assert (2 ^ 31 < 2 ^ 32) by (vm_compute; reflexivity).
  assert (Hun : unread (write_all rb evts) = evts).
  { rewrite unread_write_all, Hempty by assumption. simpl.
    apply keep_last_all. lia. }
  rewrite RingBuffer_ReadBatch_wf_eq by (auto using write_all_wf; lia).
  simpl. rewrite <- unread_length, Hun, Nat2Z.id, Nat.min_id, take_ge by lia.
  reflexivity.
Qed.

(** X18: end to end.  After a successful HookDll_Initialize, if the host
    delivers inputs of which fewer than [capacity] are to be processed,
    one HookDll_ReadEvents asking for that many returns exactly the
    events of those inputs, in delivery order. *)
Theorem X18_delivered_inputs_are_read_back fuel host st n st1 calls inputs :
  g_initialized st = FALSE ->
  HookDll_Initialize fuel host st n = Some (TRUE, st1, calls) ->
  Z.of_nat (length (flat_map captured inputs)) < capacity (g_ringBuffer st1) ->
  fst (HookDll_ReadEvents (deliver_all st1 inputs) true
         (Z.of_nat (length (flat_map captured inputs))))
  = (Z.of_nat (length (flat_map captured inputs)), flat_map captured inputs).
Proof.
  intros Hst Hrun Hlen.
  pose proof (HookDll_Initialize_cases _ _ _ _ _ _ _ Hst Hrun)
    as (rb & bytes & [H|[H|H]]).
  - destruct H as (_ & _ & Hb & _). discriminate.
  - destruct H as (_ & _ & Hb & _). discriminate.
  - destruct H as (Hinit & _ & _ & _ & -> & _). simpl in Hlen.
    pose proof (RingBuffer_Init_success _ _ _ _ _ _ Hinit)
      as (Hwf & Hh & Ht & _).
    rewrite deliver_all_active by reflexivity. simpl.
    set (evts := flat_map captured inputs) in *.
    unfold HookDll_ReadEvents. simpl.
    destruct (Z.eqb_spec (Z.of_nat (length evts)) 0) as [Hzero|Hpos].
    + destruct evts; [reflexivity|simpl in Hzero; lia].
    + pose proof (read_back_all rb evts Hwf (unread_fresh rb Hh Ht) Hlen) as Hread.
      destruct (RingBuffer_ReadBatch (write_all rb evts)
                  (Z.of_nat (length evts))) as [[count out] rb'].
      exact Hread.
Qed.

Lemma X18_delivered_inputs_are_read_back_witness :
  let pKb := {| kb_vkCode := 65; kb_scanCode := 30; kb_flags := 0;
                kb_time := 1000 |} in
  let pMs := {| ms_pt_x := 10; ms_pt_y := -4; ms_mouseData := 0;
                ms_time := 1001 |} in
  let inputs := [RawKeyboard 0 256 pKb; RawMouse (-1) 512 pMs;
                 RawMouse 0 513 pMs] in
  fst (HookDll_ReadEvents (deliver_all active_session inputs) true
         (Z.of_nat (length (flat_map captured inputs))))
  = (Z.of_nat (length (flat_map captured inputs)), flat_map captured inputs).
Proof.
  intros pKb pMs inputs.
  apply (X18_delivered_inputs_are_read_back 31 host_ok HookDll_static 8
           active_session
           [HeapAlloc 192 true;
            SetWindowsHookExW WH_KEYBOARD_LL 4109;
            SetWindowsHookExW WH_MOUSE_LL 4110] inputs).
  - reflexivity.
  - reflexivity.
  - vm_compute. reflexivity.
Defined.

Lemma session_inv_healthy st :
  session_inv st -> HookDll_IsHealthy st = g_initialized st.
Proof.
  unfold session_inv, HookDll_IsHealthy.
  destruct (g_initialized st); [|reflexivity].
  intros (_ & -> & ->). reflexivity.
Qed.

Lemma HookDll_Shutdown_inv st :
  session_inv st -> session_inv (fst (HookDll_Shutdown st)).
Proof.
  unfold session_inv, HookDll_Shutdown, RingBuffer_Destroy.
  destruct (g_initialized st) eqn:Hst; simpl.
  - intros _. destruct (buffer (g_ringBuffer st)) eqn:Hb; simpl; auto.
  - now rewrite Hst.
Qed.

Lemma session_step_inv st op st' :
  session_inv st -> session_step st op = Some st' -> session_inv st'.
Proof.
  intros Hinv Hstep. destruct op as [fuel host n|given m| |i|hm reason];
    simpl in Hstep.
  - destruct (HookDll_Initialize fuel host st n) as [[[b s] calls]|] eqn:Hrun;
      [|discriminate].
    injection Hstep as <-.
    destruct (g_initialized st) eqn:Hst.
    + unfold HookDll_Initialize in Hrun. rewrite Hst in Hrun.
      now injection Hrun as _ <- _.
    + unfold session_inv in Hinv. rewrite Hst in Hinv.
      destruct Hinv as (Hk & Hm & Hb).
      pose proof (HookDll_Initialize_cases _ _ _ _ _ _ _ Hst Hrun)
        as (rb & bytes & [H|[H|H]]).
      * destruct H as (_ & Hnull & _ & -> & _). unfold session_inv. simpl. auto.
      * destruct H as (_ & _ & _ & -> & _). unfold session_inv. simpl. auto.
      * destruct H as (Hinit & Hks & Hms & _ & -> & _).
        unfold session_inv. simpl.
        apply RingBuffer_Init_success in Hinit as (Hwf & _). auto.
  - injection Hstep as <-. unfold HookDll_ReadEvents.
    destruct (g_initialized st) eqn:Hst; simpl; [|exact Hinv].
    destruct given; simpl; [|exact Hinv].
    destruct (m =? 0); [exact Hinv|].
    pose proof (RingBuffer_ReadBatch_wf (g_ringBuffer st) m) as Hwf.
    destruct (RingBuffer_ReadBatch (g_ringBuffer st) m) as [[count out] rb].
    unfold session_inv in *. rewrite Hst in Hinv. simpl in *.
    rewrite ?Hst. destruct Hinv as (Hw & Hk & Hm). auto.
  - injection Hstep as <-. now apply HookDll_Shutdown_inv.
  - injection Hstep as <-. destruct (g_initialized st) eqn:Hst.
    + rewrite deliver_active by assumption.
      unfold session_inv in *. rewrite Hst in Hinv. simpl.
      destruct Hinv as (Hw & Hk & Hm). auto using write_all_wf.
    + now rewrite deliver_inactive.
  - injection Hstep as <-. unfold DllMain.
    destruct (reason =? DLL_PROCESS_ATTACH).
    + exact Hinv.
    + destruct (reason =? DLL_PROCESS_DETACH); [|exact Hinv].
      pose proof (HookDll_Shutdown_inv st Hinv) as Hs.
      destruct (HookDll_Shutdown st). exact Hs.
Qed.

Lemma session_run_inv st ops st' :
  session_inv st -> session_run st ops = Some st' -> session_inv st'.
Proof.
  revert st. induction ops as [|op ops IH]; intros st Hinv Hrun; simpl in Hrun.
  - now injection Hrun as <-.
  - destruct (session_step st op) as [s|] eqn:Hstep; [|discriminate].
    apply (IH s); [|exact Hrun].
    now apply (session_step_inv st op).
Qed.

(** X19: an invariant of the session.  In every state the DLL reaches
    from its initial statics through any sequence of calls to
    HookDll_Initialize, HookDll_ReadEvents, HookDll_Shutdown, the two
    callbacks and DllMain, an Active session holds two non-null handles
    and a live, well-formed channel (so a callback never stores into a
    freed or missing buffer), and an Uninitialized one holds null handles
    and no buffer. *)
Theorem X19_reachable_sessions_are_consistent ops st :
  session_run HookDll_static ops = Some st ->
  session_inv st /\
  (g_initialized st = TRUE ->
   exists slots, buffer (g_ringBuffer st) = Some slots /\
                 Z.of_nat (length slots) = capacity (g_ringBuffer st) /\
                 0 <= head (g_ringBuffer st) < capacity (g_ringBuffer st) /\
                 0 <= tail (g_ringBuffer st) < capacity (g_ringBuffer st)).
Proof.
  intros Hrun.
  assert (Hinv : session_inv st).
  { apply (session_run_inv HookDll_static ops); [|exact Hrun].
    unfold session_inv. simpl. auto. }
  split; [exact Hinv|].
  intros Hst. unfold session_inv in Hinv. rewrite Hst in Hinv.
  destruct Hinv as ([_ _ Hh Ht (slots & Hb & Hlen)] & _).
  exists slots. auto.
Qed.

Lemma X19_reachable_sessions_are_consistent_witness :
  let pKb := {| kb_vkCode := 65; kb_scanCode := 30; kb_flags := 0;
                kb_time := 1000 |} in
  let ops := [CallHook (RawKeyboard 0 256 pKb);
              CallInitialize 31 host_no_mouse 8;
              CallInitialize 31 host_ok 8;
              CallHook (RawKeyboard 0 256 pKb);
              CallReadEvents true 4;
              CallShutdown;
              CallDllMain 77 1;
              CallInitialize 31 host_ok 4;
              CallHook (RawKeyboard 0 257 pKb)] in
  exists st,
    session_run HookDll_static ops = Some st /\
    session_inv st /\
    (g_initialized st = TRUE ->
     exists slots, buffer (g_ringBuffer st) = Some slots /\
                   Z.of_nat (length slots) = capacity (g_ringBuffer st) /\
                   0 <= head (g_ringBuffer st) < capacity (g_ringBuffer st) /\
                   0 <= tail (g_ringBuffer st) < capacity (g_ringBuffer st)).
Proof.
  intros pKb ops.
  destruct (session_run HookDll_static ops) as [st|] eqn:Hrun.
  - exists st. split; [reflexivity|].
    apply (X19_reachable_sessions_are_consistent ops st). exact Hrun.
  - vm_compute in Hrun. discriminate.
Defined.

(** X20: HookDll_IsHealthy only reads the flag and the two stored
    handles, and the DLL changes the handles only in HookDll_Initialize
    and HookDll_Shutdown; so in every state the DLL reaches by its own
    entry points the health check returns exactly the Active flag. *)
Theorem X20_health_check_equals_active_flag ops st :
  session_run HookDll_static ops = Some st ->
  HookDll_IsHealthy st = g_initialized st.
Proof.
  intros Hrun. apply session_inv_healthy.
  apply (session_run_inv HookDll_static ops); [|exact Hrun].
  unfold session_inv. simpl. auto.
Qed.

Lemma X20_health_check_equals_active_flag_witness :
  HookDll_IsHealthy active_session = g_initialized active_session.
Proof.
  apply (X20_health_check_equals_active_flag [CallInitialize 31 host_ok 8]).
  reflexivity.
Defined.

(** X21: unloading the DLL while the session is Active.  After a
    successful HookDll_Initialize, DllMain with DLL_PROCESS_DETACH
    returns TRUE, having unregistered both hooks and freed the buffer
    through HookDll_Shutdown; the session is Uninitialized, nothing
    registered or allocated during the two calls is outstanding, and a
    HookDll_Shutdown that arrives afterwards does nothing (no second
    unregistration, no second free). *)
Theorem X21_process_detach_shuts_down fuel host st n st1 calls1 hModule :
  g_initialized st = FALSE ->
  HookDll_Initialize fuel host st n = Some (TRUE, st1, calls1) ->
  let r := DllMain st1 hModule DLL_PROCESS_DETACH in
  let st2 := snd (fst r) in
  fst (fst r) = TRUE /\
  snd r = [DuringShutdown
             (UnhookWindowsHookEx (host_SetWindowsHookExW host WH_KEYBOARD_LL));
           DuringShutdown
             (UnhookWindowsHookEx (host_SetWindowsHookExW host WH_MOUSE_LL));
           DuringShutdown HeapFree] /\
  g_initialized st2 = FALSE /\
  g_keyboardHook st2 = NULL /\ g_mouseHook st2 = NULL /\
  buffer (g_ringBuffer st2) = None /\
  hooks_held (calls1 ++ snd (HookDll_Shutdown st1)) [] = [] /\
  blocks_held (calls1 ++ snd (HookDll_Shutdown st1)) = 0 /\
  HookDll_Shutdown st2 = (st2, []).
Proof.
  intros Hst Hrun r st2.
  pose proof (shutdown_after_initialize _ _ _ _ _ _ Hst Hrun)
    as (Hc & Hi & Hk & Hm & Hb & Hh & Hbl).
  assert (Hr : r = (TRUE, fst (HookDll_Shutdown st1),
                    map DuringShutdown (snd (HookDll_Shutdown st1)))).
  { unfold r, DllMain. simpl.
    destruct (HookDll_Shutdown st1). reflexivity. }
  unfold st2. rewrite Hr. simpl. rewrite Hc in *. simpl.
  repeat (split; [assumption || reflexivity|]).
  unfold HookDll_Shutdown at 1. now rewrite Hi.
Qed.

Lemma X21_process_detach_shuts_down_witness :
  let calls1 := [HeapAlloc 192 true;
                 SetWindowsHookExW WH_KEYBOARD_LL 4109;
                 SetWindowsHookExW WH_MOUSE_LL 4110] in
  let r := DllMain active_session 77 DLL_PROCESS_DETACH in
  let st2 := snd (fst r) in
  fst (fst r) = TRUE /\
  snd r = [DuringShutdown
             (UnhookWindowsHookEx (host_SetWindowsHookExW host_ok WH_KEYBOARD_LL));
           DuringShutdown
             (UnhookWindowsHookEx (host_SetWindowsHookExW host_ok WH_MOUSE_LL));
           DuringShutdown HeapFree] /\
  g_initialized st2 = FALSE /\
  g_keyboardHook st2 = NULL /\ g_mouseHook st2 = NULL /\
  buffer (g_ringBuffer st2) = None /\
  hooks_held (calls1 ++ snd (HookDll_Shutdown active_session)) [] = [] /\
  blocks_held (calls1 ++ snd (HookDll_Shutdown active_session)) = 0 /\
  HookDll_Shutdown st2 = (st2, []).
Proof.
  apply (X21_process_detach_shuts_down 31 host_ok HookDll_static 8
           active_session).
  - reflexivity.
  - reflexivity.
Defined.

(** X22: HookDll_ReadEvents.  In every state that satisfies the session
    invariant (an Active session has a live, well-formed channel) and for
    every 32-bit batch size, the count returned is the number of events
    handed over and is at most [maxEvents]; the call changes neither the
    Active flag, nor the handles, nor the write index, nor the slots, and
    keeps the invariant; and when the session is not Active, the
    destination is null, or [maxEvents] is 0, it returns no event and
    changes nothing at all. *)
Theorem X22_read_events_guards_and_bounds st outEvents_given maxEvents :
  session_inv st ->
  0 <= maxEvents < 2 ^ 32 ->
  let r := HookDll_ReadEvents st outEvents_given maxEvents in
  fst (fst r) = Z.of_nat (length (snd (fst r))) /\
  0 <= fst (fst r) <= maxEvents /\
  g_initialized (snd r) = g_initialized st /\
  g_keyboardHook (snd r) = g_keyboardHook st /\
  g_mouseHook (snd r) = g_mouseHook st /\
  head (g_ringBuffer (snd r)) = head (g_ringBuffer st) /\
  buffer (g_ringBuffer (snd r)) = buffer (g_ringBuffer st) /\
  session_inv (snd r) /\
  (g_initialized st = FALSE \/ outEvents_given = false \/ maxEvents = 0 ->
   r = (0, [], st)).
Proof.
  intros Hinv Hmax r.
  assert (Hkeep : session_inv (snd r)).
  { apply (session_step_inv st (CallReadEvents outEvents_given maxEvents));
      [exact Hinv|reflexivity]. }
  revert Hkeep. unfold r, HookDll_ReadEvents.
  destruct (negb (g_initialized st) || negb outEvents_given || (maxEvents =? 0))
    eqn:Hguard.
  - simpl. intros Hkeep. repeat split; auto; lia.
  - apply orb_false_elim in Hguard as [Hguard Hzero].
    apply orb_false_elim in Hguard as [Hact Hgiven].
    apply negb_false_iff in Hact, Hgiven. apply Z.eqb_neq in Hzero.
    assert (Hwf : wf (g_ringBuffer st)).
    { unfold session_inv in Hinv. rewrite Hact in Hinv. apply Hinv. }
    pose proof (pending_lt _ Hwf) as Hp.
    rewrite RingBuffer_ReadBatch_wf_eq by assumption. simpl.
    intros Hkeep. rewrite length_take, unread_length.
    repeat split; try lia; try exact Hkeep.
    intros [H|[H|H]]; [rewrite Hact in H|rewrite Hgiven in H|]; try discriminate.
    contradiction.
Qed.

Lemma X22_read_events_guards_and_bounds_witness :
  let r := HookDll_ReadEvents active_session true 4 in
  fst (fst r) = Z.of_nat (length (snd (fst r))) /\
  0 <= fst (fst r) <= 4 /\
  g_initialized (snd r) = g_initialized active_session /\
  g_keyboardHook (snd r) = g_keyboardHook active_session /\
  g_mouseHook (snd r) = g_mouseHook active_session /\
  head (g_ringBuffer (snd r)) = head (g_ringBuffer active_session) /\
  buffer (g_ringBuffer (snd r)) = buffer (g_ringBuffer active_session) /\
  session_inv (snd r) /\
  (g_initialized active_session = FALSE \/ true = false \/ 4 = 0 ->
   r = (0, [], active_session)).
Proof.
  apply (X22_read_events_guards_and_bounds active_session true 4).
  - apply (session_run_inv HookDll_static [CallInitialize 31 host_ok 8]).
    + unfold session_inv. simpl. auto.
    + reflexivity.
  - lia.
Defined.
